(** * ANCS Mirror: the protocol core of [ancs_service.py]

    A shallow embedding of the notification-source handler, the TLV
    attribute parser, the data-source handler and the control-point request
    of class [ANCSMirror], with the theorems that relate them to the
    protocol specification.

    Python values are modelled as follows: [int] is [Z]; [bytes] and
    [bytearray] are [list byte]; a [dict] with integer keys is a [gmap Z];
    a decoded [str] is the list of its code points; exceptions are the
    [Raise] branch of [result]. *)

From Stdlib Require Import ZArith Lia List Strings.Byte Strings.String Strings.Ascii.
From stdpp Require Import base option list gmap strings pretty.
From Equations Require Import Equations.
From Equations.Prop Require Import Logic.
Import ListNotations.

Open Scope Z_scope.

(** ** Python primitives used by the source *)

Module Py.

Inductive exn : Type :=
| IndexError
| OverflowError
| UnicodeDecodeError.

Inductive result (A : Type) : Type :=
| Ok (a : A)
| Raise (e : exn).
Arguments Ok {A} a.
Arguments Raise {A} e.

Definition bind {A B} (r : result A) (k : A -> result B) : result B :=
  match r with
  | Ok a => k a
  | Raise e => Raise e
  end.

(** The value of one element of a [bytes] object, an int in [range(256)]. *)
Definition byte_val (b : byte) : Z := Z.of_N (Byte.to_N b).

(** [len(data)] *)
Definition len {A} (data : list A) : Z := Z.of_nat (length data).

(** [data[i]]: a negative index counts from the end, an index out of
    range raises [IndexError]. *)
Definition getitem (data : list byte) (i : Z) : result Z :=
  let j := if i <? 0 then i + len data else i in
  if (0 <=? j) && (j <? len data) then
    match data !! Z.to_nat j with
    | Some b => Ok (byte_val b)
    | None => Raise IndexError
    end
  else Raise IndexError.

(** The bound of a slice: negative bounds count from the end, and every
    bound is clamped to [0 .. len]. A slice never raises. *)
Definition clamp (n : Z) (k : Z) : Z :=
  if k <? 0 then Z.max (k + n) 0 else Z.min k n.

(** [data[a:b]] *)
Definition slice {A} (data : list A) (a b : Z) : list A :=
  let lo := clamp (len data) a in
  let hi := clamp (len data) b in
  take (Z.to_nat (hi - lo)) (drop (Z.to_nat lo) data).

(** [data[a:]] *)
Definition slice_from {A} (data : list A) (a : Z) : list A :=
  drop (Z.to_nat (clamp (len data) a)) data.

(** [int.from_bytes(bs, byteorder="little")] *)
Fixpoint int_from_bytes_little (bs : list byte) : Z :=
  match bs with
  | [] => 0
  | b :: rest => byte_val b + 256 * int_from_bytes_little rest
  end.

Definition byte_of_Z (z : Z) : byte :=
  match Byte.of_N (Z.to_N (z mod 256)) with
  | Some b => b
  | None => x00
  end.

Fixpoint le_bytes (n : nat) (z : Z) : list byte :=
  match n with
  | O => []
  | S n' => byte_of_Z z :: le_bytes n' (z / 256)
  end.

(** [z.to_bytes(n, byteorder="little")]: raises [OverflowError] for a
    negative int or one that does not fit [n] bytes. *)
Definition int_to_bytes_little (z : Z) (n : nat) : result (list byte) :=
  if (0 <=? z) && (z <? 256 ^ Z.of_nat n) then Ok (le_bytes n z)
  else Raise OverflowError.

(** [d.get(k, default)] *)
Definition dict_get {V} (d : gmap Z V) (k : Z) (default : V) : V :=
  match d !! k with
  | Some v => v
  | None => default
  end.

(** [d.pop(k, None)]: the removed value if there was one, and the dict
    without the key. *)
Definition dict_pop {V} (d : gmap Z V) (k : Z) : option V * gmap Z V :=
  (d !! k, delete k d).

End Py.
Import Py.

#[global] Instance result_ret : MRet result := @Ok.
#[global] Instance result_bind : MBind result := fun A B k r => Py.bind r k.

(** ** Protocol constants *)

Definition EVENT_ADDED : Z := 0.
Definition EVENT_MODIFIED : Z := 1.
Definition EVENT_REMOVED : Z := 2.

Definition CATEGORIES : gmap Z string :=
  list_to_map
    [ (0, "Other"%string); (1, "IncomingCall"%string); (2, "MissedCall"%string);
      (3, "Voicemail"%string); (4, "Social"%string); (5, "Schedule"%string);
      (6, "Email"%string); (7, "News"%string); (8, "Health"%string);
      (9, "Business"%string); (10, "Location"%string);
      (11, "Entertainment"%string) ].

Definition CP_GET_NOTIFICATION_ATTRIBUTES : Z := 0.

Definition NA_APP_IDENTIFIER : Z := 0.
Definition NA_TITLE : Z := 1.
Definition NA_SUBTITLE : Z := 2.
Definition NA_MESSAGE : Z := 3.

Definition MAX_TITLE_LEN : Z := 64.
Definition MAX_MESSAGE_LEN : Z := 256.

(** ** The TLV attribute parser, [_parse_tlv_attributes] *)

(** What one pass through the body of the [while] loop does: leave the
    loop ([Stop], the condition is false or [break] is reached) or go
    round again with a new cursor and mapping ([Next]). *)
Inductive tlv_ctl : Type :=
| Stop (out : gmap Z (list byte))
| Next (i : Z) (out : gmap Z (list byte)).

Definition tlv_iter (data : list byte) (i : Z) (out : gmap Z (list byte))
  : result tlv_ctl :=
  if i + 3 <=? len data then
    attr_id ← getitem data i;
    let length := int_from_bytes_little (slice data (i + 1) (i + 3)) in
    let i := i + 3 in
    if i + length >? len data then Ok (Stop out)
    else
      let value := slice data i (i + length) in
      let out := <[attr_id := value]> out in
      let i := i + length in
      Ok (Next i out)
  else Ok (Stop out).

(** The [while] loop. It ends because every pass that goes round again
    leaves fewer bytes between the cursor and the end of the buffer. *)
Equations? tlv_loop (data : list byte) (i : Z) (out : gmap Z (list byte))
  : result (gmap Z (list byte)) by wf (Z.to_nat (len data - i)) lt :=
  tlv_loop data i out with inspect (tlv_iter data i out) => {
    | exist _ (Raise e) _ := Raise e;
    | exist _ (Ok (Stop out')) _ := Ok out';
    | exist _ (Ok (Next i' out')) H := tlv_loop data i' out' }.
Proof.
  assert (forall bs, 0 <= int_from_bytes_little bs) as Hn
    by (induction bs; simpl; unfold byte_val; lia).
  unfold tlv_iter in H.
  destruct (i + 3 <=? len data) eqn:Hc; [|discriminate].
  destruct (getitem data i); simpl in H; [|discriminate].
  specialize (Hn (slice data (i + 1) (i + 3))).
  destruct (_ >? _) eqn:Hb in H; [discriminate|].
  injection H as <- _.
  rewrite Z.gtb_ltb in Hb. apply Z.ltb_ge in Hb. apply Z.leb_le in Hc. lia.
Qed.

Definition _parse_tlv_attributes (data : list byte)
  : result (gmap Z (list byte)) :=
  tlv_loop data 0 ∅.

(** ** Text: [bytes.decode] and [str.strip] *)

Module Text.

(** The [errors] argument of [bytes.decode]. *)
Inductive error_handler : Type := Strict | Ignore.

(** A continuation byte, [0x80 .. 0xBF]. *)
Definition is_continuation (c : Z) : bool := (0x80 <=? c) && (c <=? 0xBF).

(** An invalid sequence: [Strict] raises, [Ignore] drops it and goes on
    with the bytes that follow. *)
Definition invalid (errors : error_handler) (rest : result (list Z))
  : result (list Z) :=
  match errors with
  | Strict => Raise UnicodeDecodeError
  | Ignore => rest
  end.

Definition emit (c : Z) (rest : result (list Z)) : result (list Z) :=
  cs ← rest; Ok (c :: cs).

(** [bs.decode("utf-8", errors)], the result as a list of code points.
    A lead byte whose continuation is wrong is invalid on its own (or
    with the continuation bytes checked so far) and decoding resumes at
    the offending byte; a sequence cut short by the end of the data is
    invalid as a whole. Overlong forms, surrogates and code points above
    [0x10FFFF] are rejected at the second byte. *)
Fixpoint utf8_decode (errors : error_handler) (s : list byte)
  : result (list Z) :=
  match s with
  | [] => Ok []
  | b1 :: s1 =>
    let c1 := byte_val b1 in
    if c1 <? 0x80 then emit c1 (utf8_decode errors s1)
    else if c1 <? 0xC2 then invalid errors (utf8_decode errors s1)
    else if c1 <? 0xE0 then
      match s1 with
      | [] => invalid errors (Ok [])
      | b2 :: s2 =>
        let c2 := byte_val b2 in
        if negb (is_continuation c2) then
          invalid errors (utf8_decode errors s1)
        else
          emit (Z.shiftl (Z.land c1 0x1F) 6 + Z.land c2 0x3F)
               (utf8_decode errors s2)
      end
    else if c1 <? 0xF0 then
      match s1 with
      | [] => invalid errors (Ok [])
      | b2 :: s2 =>
        let c2 := byte_val b2 in
        if negb (is_continuation c2)
           || (if c2 <? 0xA0 then c1 =? 0xE0 else c1 =? 0xED) then
          invalid errors (utf8_decode errors s1)
        else
          match s2 with
          | [] => invalid errors (Ok [])
          | b3 :: s3 =>
            let c3 := byte_val b3 in
            if negb (is_continuation c3) then
              invalid errors (utf8_decode errors s2)
            else
              emit (Z.shiftl (Z.land c1 0x0F) 12
                    + Z.shiftl (Z.land c2 0x3F) 6 + Z.land c3 0x3F)
                   (utf8_decode errors s3)
          end
      end
    else if c1 <? 0xF5 then
      match s1 with
      | [] => invalid errors (Ok [])
      | b2 :: s2 =>
        let c2 := byte_val b2 in
        if negb (is_continuation c2)
           || (if c2 <? 0x90 then c1 =? 0xF0 else c1 =? 0xF4) then
          invalid errors (utf8_decode errors s1)
        else
          match s2 with
          | [] => invalid errors (Ok [])
          | b3 :: s3 =>
            let c3 := byte_val b3 in
            if negb (is_continuation c3) then
              invalid errors (utf8_decode errors s2)
            else
              match s3 with
              | [] => invalid errors (Ok [])
              | b4 :: s4 =>
                let c4 := byte_val b4 in
                if negb (is_continuation c4) then
                  invalid errors (utf8_decode errors s3)
                else
                  emit (Z.shiftl (Z.land c1 0x07) 18
                        + Z.shiftl (Z.land c2 0x3F) 12
                        + Z.shiftl (Z.land c3 0x3F) 6 + Z.land c4 0x3F)
                       (utf8_decode errors s4)
              end
          end
      end
    else invalid errors (utf8_decode errors s1)
  end.

(** [s.lstrip(chars)], [s.rstrip(chars)] and [s.strip(chars)] *)
Fixpoint lstrip (chars : list Z) (s : list Z) : list Z :=
  match s with
  | [] => []
  | c :: s' => if bool_decide (c ∈ chars) then lstrip chars s' else s
  end.

Definition rstrip (chars : list Z) (s : list Z) : list Z :=
  reverse (lstrip chars (reverse s)).

Definition strip (chars : list Z) (s : list Z) : list Z :=
  rstrip chars (lstrip chars s).

End Text.
Import Text.

(** The argument of the three [strip] calls, ["\x00\n\r "]. *)
Definition STRIP_CHARS : list Z := [0x00; 0x0A; 0x0D; 0x20].

(** ** The state of an [ANCSMirror] and what it prints *)

Record PendingRequest : Type := mkPendingRequest {
  uid : Z;
  expecting : string;
}.

(** One constructor per [print] call of the handlers, holding the values
    the f-string interpolates. *)
Inductive line : Type :=
| NsShortPacket (data : list byte)
| NsEvent (event_name : string) (uid : Z) (category : string)
          (category_count : Z) (event_flags : Z)
| DsShortPacket (data : list byte)
| DsNotificationAttributes
| DsApp (app_id : list Z)
| DsTitle (title : list Z)
| DsMessage (preview : list Z)
| DsNoAttributes (payload : list byte)
| CpRequested (uid : Z)
| CpWriteFailed (e : string).

Record ANCSMirror : Type := mkANCSMirror {
  (** [self.client] is set *)
  client : bool;
  (** [self.pending] *)
  pending : gmap Z PendingRequest;
  (** the lines printed so far, oldest first *)
  stdout : list line;
  (** the uid arguments of the [_request_notification_attributes]
      coroutines handed to [asyncio.create_task] so far, oldest first *)
  tasks : list Z;
  (** the payloads handed to [write_gatt_char] so far, oldest first *)
  written : list (list byte);
}.

Definition print (l : line) (self : ANCSMirror) : ANCSMirror :=
  mkANCSMirror (client self) (pending self) (stdout self ++ [l])
               (tasks self) (written self).

Definition create_task (uid : Z) (self : ANCSMirror) : ANCSMirror :=
  mkANCSMirror (client self) (pending self) (stdout self)
               (tasks self ++ [uid]) (written self).

Definition set_pending (p : gmap Z PendingRequest) (self : ANCSMirror)
  : ANCSMirror :=
  mkANCSMirror (client self) p (stdout self) (tasks self) (written self).

Definition write_gatt_char_called (cmd : list byte) (self : ANCSMirror)
  : ANCSMirror :=
  mkANCSMirror (client self) (pending self) (stdout self) (tasks self)
               (written self ++ [cmd]).

(** ** The notification-source handler, [_on_notification_source] *)

Definition EVENT_NAMES : gmap Z string :=
  list_to_map [ (0, "Added"%string); (1, "Modified"%string);
                (2, "Removed"%string) ].

(** [f"Unknown({n})"] *)
Definition unknown (n : Z) : string := "Unknown(" +:+ pretty n +:+ ")".

(** No exception can leave the handler after its first effect, so the
    result is either the new state or the exception alone. *)
Definition _on_notification_source (data : list byte) (self : ANCSMirror)
  : result ANCSMirror :=
  if len data <? 8 then Ok (print (NsShortPacket data) self)
  else
    event_id ← getitem data 0;
    event_flags ← getitem data 1;
    category_id ← getitem data 2;
    category_count ← getitem data 3;
    let uid := int_from_bytes_little (slice data 4 8) in
    let category := dict_get CATEGORIES category_id (unknown category_id) in
    let event_name := dict_get EVENT_NAMES event_id (unknown event_id) in
    let self :=
      print (NsEvent event_name uid category category_count event_flags) self in
    if event_id =? EVENT_ADDED then Ok (create_task uid self)
    else if event_id =? EVENT_REMOVED then
      Ok (set_pending (snd (dict_pop (pending self) uid)) self)
    else Ok self.

(** ** The data-source handler, [_on_data_source] *)

Record summary : Type := mkSummary {
  app_id : list Z;
  title : list Z;
  message : list Z;
}.

(** The three attributes the handler reads from the parsed mapping,
    decoded and trimmed. *)
Definition summarize (attrs : gmap Z (list byte)) : result summary :=
  title ← utf8_decode Ignore (dict_get attrs NA_TITLE []);
  message ← utf8_decode Ignore (dict_get attrs NA_MESSAGE []);
  app_id ← utf8_decode Ignore (dict_get attrs NA_APP_IDENTIFIER []);
  let title := strip STRIP_CHARS title in
  let message := strip STRIP_CHARS message in
  let app_id := strip STRIP_CHARS app_id in
  Ok (mkSummary app_id title message).

(** [if s:] on a string *)
Definition truthy (s : list Z) : bool :=
  match s with [] => false | _ => true end.

(** [message if len(message) <= 200 else message[:200] + "…"] *)
Definition preview (message : list Z) : list Z :=
  if len message <=? 200 then message else slice message 0 200 ++ [0x2026].

Definition print_if (b : bool) (l : line) (self : ANCSMirror) : ANCSMirror :=
  if b then print l self else self.

Definition _on_data_source (data : list byte) (self : ANCSMirror)
  : result ANCSMirror :=
  if len data <? 4 then Ok (print (DsShortPacket data) self)
  else
    let uid := int_from_bytes_little (slice data 0 4) in
    let payload := slice_from data 4 in
    attrs ← _parse_tlv_attributes payload;
    s ← summarize attrs;
    let self := print DsNotificationAttributes self in
    let self := print_if (truthy (app_id s)) (DsApp (app_id s)) self in
    let self := print_if (truthy (title s)) (DsTitle (title s)) self in
    let self :=
      print_if (truthy (message s)) (DsMessage (preview (message s))) self in
    let self :=
      print_if (negb (truthy (app_id s) || truthy (title s)
                      || truthy (message s)))
               (DsNoAttributes payload) self in
    Ok (set_pending (snd (dict_pop (pending self) uid)) self).

(** ** The attribute request, [_request_notification_attributes] *)

(** How the awaited [write_gatt_char] ends: it returns, or it raises an
    [Exception] with the given text. *)
Inductive write_outcome : Type :=
| WriteOk
| WriteFailed (e : string).

(** The command built before the [try], for a uid that fits four bytes. *)
Definition build_command (uid : Z) : result (list byte) :=
  let cmd := [] in
  let cmd := cmd ++ [byte_of_Z CP_GET_NOTIFICATION_ATTRIBUTES] in
  uid_bytes ← int_to_bytes_little uid 4;
  let cmd := cmd ++ uid_bytes in
  let cmd := cmd ++ [byte_of_Z NA_APP_IDENTIFIER] in
  let cmd := cmd ++ [byte_of_Z NA_TITLE] in
  title_len ← int_to_bytes_little MAX_TITLE_LEN 2;
  let cmd := cmd ++ title_len in
  let cmd := cmd ++ [byte_of_Z NA_MESSAGE] in
  message_len ← int_to_bytes_little MAX_MESSAGE_LEN 2;
  let cmd := cmd ++ message_len in
  Ok cmd.

(** The coroutine up to the point where it awaits the write: [None] when
    there is no client, else the payload handed to [write_gatt_char]. *)
Definition request_start (uid : Z) (self : ANCSMirror)
  : result (option (list byte) * ANCSMirror) :=
  if negb (client self) then Ok (None, self)
  else
    cmd ← build_command uid;
    let self :=
      set_pending
        (<[uid := mkPendingRequest uid "notification_attributes"]>
           (pending self)) self in
    Ok (Some cmd, write_gatt_char_called cmd self).

(** The coroutine from the point where the awaited write has ended. *)
Definition request_finish (uid : Z) (w : write_outcome) (self : ANCSMirror)
  : ANCSMirror :=
  match w with
  | WriteOk => print (CpRequested uid) self
  | WriteFailed e =>
    let self := print (CpWriteFailed e) self in
    set_pending (snd (dict_pop (pending self) uid)) self
  end.

(** The whole coroutine when nothing else runs while it awaits; the
    transport decides how the write of a payload ends. *)
Definition _request_notification_attributes
    (write_gatt_char : list byte -> write_outcome) (uid : Z)
    (self : ANCSMirror) : result ANCSMirror :=
  r ← request_start uid self;
  match r with
  | (None, self) => Ok self
  | (Some cmd, self) => Ok (request_finish uid (write_gatt_char cmd) self)
  end.

(** ** The remembered address: [load_saved_address], [save_address],
    [clear_saved_address] *)

(** What [json.load] can return. *)
#[warnings="-register-all"] Inductive json : Type :=
| JNone
| JBool (b : bool)
| JInt (n : Z)
| JFloat
| JString (s : string)
| JArray (items : list json)
| JObject (members : gmap string json).

(** The file at [CONFIG_FILE] as the functions see it: not there
    ([os.path.exists] is false and [open] raises), there but [open]
    raises, there but [json.load] raises, or holding a JSON value. *)
Inductive config_file : Type :=
| Missing
| Unreadable
| NotJson
| Json (data : json).

(** [if s:] on a [str] *)
Definition nonempty (s : string) : bool :=
  match s with
  | EmptyString => false
  | String _ _ => true
  end.

(** [if s:] on an [Optional[str]] *)
Definition is_set (s : option string) : bool :=
  match s with
  | Some s => nonempty s
  | None => false
  end.

(** [a or b] on two [Optional[str]] *)
Definition or_else (a b : option string) : option string :=
  if is_set a then a else b.

(** [data.get(key)]: [None] stands for the [AttributeError] of a value
    that is not a dict, [Some None] for the [None] a dict returns for a
    key it does not have. *)
Definition json_get (data : json) (key : string) : option (option json) :=
  match data with
  | JObject members => Some (members !! key)
  | _ => None
  end.

(** Every exception inside the [try] ends in [return None]. *)
Definition load_saved_address (file : config_file) : option string :=
  match file with
  | Json data =>
    match json_get data "address" with
    | Some (Some (JString addr)) => if nonempty addr then Some addr else None
    | Some _ => None
    | None => None
    end
  | Missing | Unreadable | NotJson => None
  end.

Inductive cfg_line : Type :=
| CfgSaved
| CfgSaveFailed (e : string)
| CfgCleared
| CfgClearFailed (e : string)
| CfgUsingSaved (saved_addr : string).

(** How opening the file for writing and dumping into it ends: the file
    holds the dumped value, or an exception is raised and the file is
    left in some state. *)
Inductive dump_outcome : Type :=
| Dumped
| DumpFailed (e : string) (after : config_file).

Definition save_address (address : string) (io : dump_outcome)
  : config_file * list cfg_line :=
  match io with
  | Dumped => (Json (JObject {[ "address"%string := JString address ]}),
               [CfgSaved])
  | DumpFailed e after => (after, [CfgSaveFailed e])
  end.

(** How [os.remove] ends: the file is gone, or an exception is raised and
    the file stays. *)
Inductive remove_outcome : Type :=
| RemoveOk
| RemoveFailed (e : string).

(** [os.path.exists(CONFIG_FILE)] *)
Definition path_exists (file : config_file) : bool :=
  match file with
  | Missing => false
  | Unreadable | NotJson | Json _ => true
  end.

Definition clear_saved_address (rm : remove_outcome) (file : config_file)
  : config_file * list cfg_line :=
  if path_exists file then
    match rm with
    | RemoveOk => (Missing, [CfgCleared])
    | RemoveFailed e => (file, [CfgClearFailed e])
    end
  else (file, []).

(** ** Choosing the device: [scan_and_pick], [connect] and [main] *)

(** A device found by the scanner: [d.name], which may be [None], and
    [d.address]. *)
Record device : Type := mkDevice {
  name : option string;
  address : string;
}.

Inductive scan_line : Type :=
| ScanScanning
| ScanFound (shown : string) (addr : string)
| ScanNoDevices
| ScanChoosing (shown : string) (addr : string).

(** [d.name or 'Unknown'] *)
Definition shown_name (d : device) : string :=
  match name d with
  | Some n => if nonempty n then n else "Unknown"
  | None => "Unknown"
  end.

(** [scan_and_pick], given what [BleakScanner.discover] returns: the
    chosen address and the lines printed. *)
Definition scan_and_pick (devices : list device)
  : option string * list scan_line :=
  let out := [ScanScanning] in
  let out := out ++ map (fun d => ScanFound (shown_name d) (address d))
                        devices in
  match devices with
  | [] => (None, out ++ [ScanNoDevices])
  | d :: _ =>
    let chosen := address d in
    (Some chosen, out ++ [ScanChoosing (shown_name d) chosen])
  end.

(** The first statements of [connect]: the address it goes on with, or
    [None] when it raises [RuntimeError] for want of one; the scan runs
    only when [self.address] is not set. *)
Definition connect_address (self_address : option string)
           (devices : list device) : option string * list scan_line :=
  if is_set self_address then (self_address, [])
  else
    let '(addr, out) := scan_and_pick devices in
    if is_set addr then (addr, out) else (None, out).

(** [main] up to the construction of the [ANCSMirror]: the address it is
    given, the configuration file afterwards and the lines printed. *)
Definition main_address (args_address : option string)
           (args_forget_address : bool) (rm : remove_outcome)
           (file : config_file)
  : option string * config_file * list cfg_line :=
  let '(file, out) :=
    if args_forget_address then clear_saved_address rm file
    else (file, []) in
  let saved_addr := load_saved_address file in
  let effective_address := or_else args_address saved_addr in
  let out :=
    match saved_addr with
    | Some saved =>
      if is_set saved_addr && negb (is_set args_address)
      then out ++ [CfgUsingSaved saved] else out
    | None => out
    end in
  (effective_address, file, out).

(** ** The handlers under the event loop *)

(** What the event loop can make happen to a connected [ANCSMirror]: a
    packet arrives on one of the two subscribed characteristics; the
    [n]-th coroutine handed to [create_task] runs up to its awaited write;
    or it is resumed with the outcome of that write. Any order is allowed
    here, which covers every order the loop can produce. *)
Inductive event : Type :=
| NotificationSource (data : list byte)
| DataSource (data : list byte)
| RequestStarts (n : nat)
| RequestResumes (n : nat) (w : write_outcome).

Definition deliver (e : event) (self : ANCSMirror) : result ANCSMirror :=
  match e with
  | NotificationSource data => _on_notification_source data self
  | DataSource data => _on_data_source data self
  | RequestStarts n =>
    match tasks self !! n with
    | Some uid => r ← request_start uid self; Ok (snd r)
    | None => Ok self
    end
  | RequestResumes n w =>
    match tasks self !! n with
    | Some uid => Ok (request_finish uid w self)
    | None => Ok self
    end
  end.

Fixpoint run_events (es : list event) (self : ANCSMirror)
  : result ANCSMirror :=
  match es with
  | [] => Ok self
  | e :: es' => self' ← deliver e self; run_events es' self'
  end.

(** [ANCSMirror.__init__], once [connect] has set the client. *)
Definition connected : ANCSMirror := mkANCSMirror true ∅ [] [] [].

(** ** The wire formats as the specification words them *)

Module Spec.

(** One TLV record of a data-source response: attribute kind and value. *)
Definition record : Type := byte * list byte.

(** [{attributeKind: u8, length: u16 LE, value: length bytes}] *)
Definition record_bytes (r : record) : list byte :=
  r.1 :: le_bytes 2 (len r.2) ++ r.2.

Definition records_bytes (rs : list record) : list byte :=
  concat (map record_bytes rs).

(** The length of the value fits the 16-bit length field. *)
Definition fits (r : record) : bool := len r.2 <? 65536.

(** Where parsing stops: fewer than 3 bytes remain, or the declared
    length runs past the end of the buffer. *)
Definition stops (tail : list byte) : bool :=
  match tail with
  | _ :: lo :: hi :: rest => len rest <? byte_val lo + 256 * byte_val hi
  | _ => true
  end.

(** The mapping of a sequence of records, in the order they arrive. *)
Definition mapping (rs : list record) : gmap Z (list byte) :=
  fold_left (fun m r => <[byte_val r.1 := r.2]> m) rs ∅.

(** The value of the last record of kind [k]. *)
Definition last_value (k : byte) (rs : list record) : option (list byte) :=
  snd <$> last (filter (fun r => byte_val r.1 = byte_val k) rs).

(** Event kinds: 0=Added, 1=Modified, 2=Removed, any other code an
    unknown kind that carries the code. *)
Definition event_name (code : Z) : string :=
  match code with
  | 0 => "Added"
  | 1 => "Modified"
  | 2 => "Removed"
  | n => "Unknown(" +:+ pretty n +:+ ")"
  end.

(** The category code table, 0 to 11, any other code an unknown
    category that carries the code. *)
Definition category_name (code : Z) : string :=
  match code with
  | 0 => "Other"
  | 1 => "IncomingCall"
  | 2 => "MissedCall"
  | 3 => "Voicemail"
  | 4 => "Social"
  | 5 => "Schedule"
  | 6 => "Email"
  | 7 => "News"
  | 8 => "Health"
  | 9 => "Business"
  | 10 => "Location"
  | 11 => "Entertainment"
  | n => "Unknown(" +:+ pretty n +:+ ")"
  end.

(** A little-endian u32 from its four bytes. *)
Definition u32_le (b0 b1 b2 b3 : byte) : Z :=
  byte_val b0 + 2 ^ 8 * byte_val b1 + 2 ^ 16 * byte_val b2
  + 2 ^ 24 * byte_val b3.

(** A little-endian u16 from its two bytes. *)
Definition u16_le (b0 b1 : byte) : Z := byte_val b0 + 2 ^ 8 * byte_val b1.

(** The attribute kinds whose value is variable-length and bounded by a
    maximum length: title (1), subtitle (2) and message (3). *)
Definition variable_length (kind : Z) : bool :=
  (kind =? 1) || (kind =? 2) || (kind =? 3).

(** A requested attribute: its kind and, for a variable-length kind, the
    maximum length. *)
Definition attribute : Type := Z * option Z.

Definition well_formed (a : attribute) : bool :=
  (0 <=? a.1) && (a.1 <? 256) &&
  match a.2 with
  | Some max_length =>
    variable_length a.1 && (0 <=? max_length) && (max_length <? 65536)
  | None => negb (variable_length a.1)
  end.

(** [attributeKind: u8], then [maxLength: u16 LE] only for a
    variable-length kind. *)
Definition attribute_bytes (a : attribute) : list byte :=
  byte_of_Z a.1 ::
  match a.2 with
  | Some max_length =>
    if variable_length a.1 then le_bytes 2 max_length else []
  | None => []
  end.

(** [commandId = 0], [uid: u32 LE], then the attributes in order. *)
Definition command_bytes (uid : Z) (attrs : list attribute) : list byte :=
  byte_of_Z 0 :: le_bytes 4 uid ++ concat (map attribute_bytes attrs).

(** Reading a command back: the attribute list ... *)
Fixpoint attributes_of_bytes (bs : list byte) : option (list attribute) :=
  match bs with
  | [] => Some []
  | k :: rest =>
    if variable_length (byte_val k) then
      match rest with
      | lo :: hi :: rest' =>
        cons (byte_val k, Some (u16_le lo hi)) <$> attributes_of_bytes rest'
      | _ => None
      end
    else cons (byte_val k, None) <$> attributes_of_bytes rest
  end.

(** ... after the fixed header: command id and uid. *)
Definition command_of_bytes (bs : list byte)
  : option (Z * Z * list attribute) :=
  match bs with
  | c :: b0 :: b1 :: b2 :: b3 :: rest =>
    attrs ← attributes_of_bytes rest;
    Some (byte_val c, u32_le b0 b1 b2 b3, attrs)
  | _ => None
  end.

(** The request the dispatcher issues for an Added event:
    [AppIdentifier, Title(64), Message(256)]. *)
Definition requested : list attribute :=
  [(0, None); (1, Some 64); (3, Some 256)].

(** A Unicode scalar value: a code point up to [0x10FFFF] that is not a
    surrogate. *)
Definition is_scalar (cp : Z) : bool :=
  (0 <=? cp) && (cp <=? 0x10FFFF) && negb ((0xD800 <=? cp) && (cp <=? 0xDFFF)).

(** The UTF-8 encoding of a scalar value, one to four bytes. *)
Definition utf8_encode (cp : Z) : list byte :=
  if cp <? 0x80 then [byte_of_Z cp]
  else if cp <? 0x800 then
    [byte_of_Z (0xC0 + cp / 64); byte_of_Z (0x80 + cp mod 64)]
  else if cp <? 0x10000 then
    [byte_of_Z (0xE0 + cp / 4096); byte_of_Z (0x80 + (cp / 64) mod 64);
     byte_of_Z (0x80 + cp mod 64)]
  else
    [byte_of_Z (0xF0 + cp / 262144); byte_of_Z (0x80 + (cp / 4096) mod 64);
     byte_of_Z (0x80 + (cp / 64) mod 64); byte_of_Z (0x80 + cp mod 64)].

(** No character starts here: the bytes do not begin with the encoding
    of any scalar value. *)
Definition no_character_at (bs : list byte) : Prop :=
  forall cp, is_scalar cp = true -> ~ (utf8_encode cp `prefix_of` bs).

(** Permissive decoding, read from left to right: where the bytes begin
    with the encoding of a scalar value, that character is kept and
    decoding goes on after it; where they do not, the byte there is
    invalid and is dropped, and only there. Valid text is kept whole. *)
Inductive permissive : list byte -> list Z -> Prop :=
| permissive_end : permissive [] []
| permissive_keep (cp : Z) (rest : list byte) (text : list Z) :
    is_scalar cp = true ->
    permissive rest text ->
    permissive (utf8_encode cp ++ rest) (cp :: text)
| permissive_drop (b : byte) (rest : list byte) (text : list Z) :
    no_character_at (b :: rest) ->
    permissive rest text ->
    permissive (b :: rest) text.

(** [field] is [text] with the characters of [chars] removed from both
    ends: what is removed is made of such characters only, and what is
    left neither starts nor ends with one. *)
Definition trimmed (chars : list Z) (text field : list Z) : Prop :=
  exists l r : list Z,
    text = l ++ field ++ r /\
    Forall (fun c => c ∈ chars) l /\
    Forall (fun c => c ∈ chars) r /\
    (forall c, head field = Some c -> c ∉ chars) /\
    (forall c, last field = Some c -> c ∉ chars).

(** NUL, line feed, carriage return and space. *)
Definition trim_chars : list Z := [0; 10; 13; 32].

(** NUL and the whitespace control characters: tab, line feed, vertical
    tab, form feed and carriage return. *)
Definition nul_or_whitespace_control : list Z := [0; 9; 10; 11; 12; 13].

(** A field of the summary: empty when the response has no such
    attribute, else the trimmed permissive decoding of its value. *)
Definition field (chars : list Z) (raw : option (list byte))
           (value : list Z) : Prop :=
  match raw with
  | None => value = []
  | Some bs => exists text, permissive bs text /\ trimmed chars text value
  end.

End Spec.

(** ** Properties the later theorems speak of *)

(** What a response prints after its first line: one line for each of
    application id, title and message that is not empty, in this order,
    or the raw payload when all three are empty. *)
Definition summary_lines (s : summary) (payload : list byte) : list line :=
  let shown :=
    (if truthy (app_id s) then [DsApp (app_id s)] else [])
    ++ (if truthy (title s) then [DsTitle (title s)] else [])
    ++ (if truthy (message s) then [DsMessage (preview (message s))]
        else []) in
  match shown with
  | [] => [DsNoAttributes payload]
  | _ => shown
  end.

(** A 7-bit byte. *)
Definition is_ascii (b : byte) : bool := byte_val b <? 0x80.

(** A Unicode scalar value: a code point up to [0x10FFFF] that is not a
    surrogate. *)
Definition scalar_value (c : Z) : Prop :=
  0 <= c <= 0x10FFFF /\ ~ (0xD800 <= c <= 0xDFFF).

(** The u32 range of a notification uid. *)
Definition is_u32 (n : Z) : Prop := 0 <= n < 2 ^ 32.

(** The bookkeeping the handlers keep between them: a pending entry sits
    under its own uid, expects notification attributes and belongs to a
    request that an Added event has scheduled; every scheduled uid fits
    four bytes; every payload written is the attribute request for a
    scheduled uid. *)
Definition well_kept (self : ANCSMirror) : Prop :=
  (forall k p, pending self !! k = Some p ->
               p = mkPendingRequest k "notification_attributes"
               /\ k ∈ tasks self) /\
  Forall is_u32 (tasks self) /\
  Forall (fun cmd => exists u, u ∈ tasks self
                               /\ cmd = Spec.command_bytes u Spec.requested)
         (written self).

(** ** Proof steps for the decoder *)

(** Boolean tests of the source in the hypotheses, as arithmetic. *)
Ltac tests_to_arith :=
  repeat match goal with
         | H : negb _ = false |- _ => apply negb_false_iff in H
         | H : negb _ = true |- _ => apply negb_true_iff in H
         | H : (_ || _) = false |- _ =>
           apply orb_false_iff in H; destruct H
         | H : (_ && _) = true |- _ =>
           apply andb_true_iff in H; destruct H
         | H : is_continuation _ = true |- _ => unfold is_continuation in H
         | H : (if ?c then _ else _) = false |- _ => destruct c eqn:?
         | H : (_ <? _) = true |- _ => apply Z.ltb_lt in H
         | H : (_ <? _) = false |- _ => apply Z.ltb_ge in H
         | H : (_ <=? _) = true |- _ => apply Z.leb_le in H
         | H : (_ <=? _) = false |- _ => apply Z.leb_gt in H
         | H : (_ =? _) = false |- _ => apply Z.eqb_neq in H
         | H : (_ =? _) = true |- _ => apply Z.eqb_eq in H
         end.

(** The masks and shifts of the decoder, as remainders and products. *)
Ltac bits_to_arith :=
  change 7 with (Z.ones 3); change 15 with (Z.ones 4);
  change 31 with (Z.ones 5); change 63 with (Z.ones 6);
  rewrite ?Z.land_ones by lia;
  rewrite ?Z.shiftl_mul_pow2 by lia;
  change (2 ^ 3) with 8; change (2 ^ 4) with 16; change (2 ^ 5) with 32;
  change (2 ^ 6) with 64; change (2 ^ 12) with 4096;
  change (2 ^ 18) with 262144.

(** The same three ways a step of the decoder ends, for a property of the
    decoded text: [H] is the equation for the result of the step. *)
Ltac scalar_dropped IH tl H :=
  cbn [invalid] in H;
  destruct (IH tl _ ltac:(simpl in *; lia) H) as [? ?];
  split; [assumption | simpl in *; lia].

Ltac scalar_cut_short H :=
  cbn in H; injection H as <-; split; [constructor | simpl; lia].

Ltac scalar_emitted IH tl H :=
  let t' := fresh "t" in
  let Hd := fresh "Hd" in
  destruct (utf8_decode Ignore tl) as [t'|] eqn:Hd; [|discriminate H];
  cbn in H; injection H as <-;
  destruct (IH tl _ ltac:(simpl in *; lia) Hd) as [? ?];
  split; [constructor; [|assumption] | simpl in *; lia];
  tests_to_arith; unfold scalar_value; bits_to_arith;
  Z.div_mod_to_equations; lia.

(** The boolean tests in the hypotheses as arithmetic, with a case for
    each way a disjunction holds or a conjunction fails. *)
Ltac tests_to_cases :=
  repeat match goal with
         | H : negb _ = false |- _ => apply negb_false_iff in H
         | H : negb _ = true |- _ => apply negb_true_iff in H
         | H : (_ || _) = false |- _ =>
           apply orb_false_iff in H; destruct H
         | H : (_ || _) = true |- _ =>
           apply orb_true_iff in H; destruct H
         | H : (_ && _) = true |- _ =>
           apply andb_true_iff in H; destruct H
         | H : (_ && _) = false |- _ =>
           apply andb_false_iff in H; destruct H
         | H : is_continuation _ = _ |- _ => unfold is_continuation in H
         | H : (if ?c then _ else _) = _ |- _ => destruct c eqn:?
         | H : (_ <? _) = true |- _ => apply Z.ltb_lt in H
         | H : (_ <? _) = false |- _ => apply Z.ltb_ge in H
         | H : (_ <=? _) = true |- _ => apply Z.leb_le in H
         | H : (_ <=? _) = false |- _ => apply Z.leb_gt in H
         | H : (_ =? _) = false |- _ => apply Z.eqb_neq in H
         | H : (_ =? _) = true |- _ => apply Z.eqb_eq in H
         end.

(** No character starts at the bytes of the goal: [shapes] tells what
    the encoding of a scalar value looks like, and none of its four
    shapes agrees with the tests the decoder has made. *)
Ltac no_character shapes :=
  let cp := fresh "cp" in
  let Hs := fresh "Hs" in
  let Hp := fresh "Hp" in
  let k := fresh "k" in
  let He := fresh "He" in
  unfold Spec.no_character_at, prefix;
  intros cp Hs [k Hp];
  destruct (shapes cp Hs)
    as [(? & He & ?)|[(? & ? & He & ?)|[(? & ? & ? & He & ?)
                                       |(? & ? & ? & ? & He & ?)]]];
  rewrite He in Hp; cbn [app] in Hp; inversion Hp; subst;
  tests_to_cases; lia.

(** The three ways a step of [utf8_decode Ignore] ends, for the permissive
    reading of the bytes: the invalid bytes before [tl] dropped one by
    one, the bytes cut short by the end of the data dropped one by one,
    or the character that [encoded] recognises kept. [IH] is the
    statement for shorter inputs. *)
Ltac permissive_dropped IH shapes tl :=
  let t := fresh "t" in
  let Hign := fresh "Hign" in
  let Hperm := fresh "Hperm" in
  destruct (IH tl ltac:(simpl in *; lia)) as (t & Hign & Hperm);
  exists t; split; [exact Hign|];
  solve [repeat (first [exact Hperm
                       | apply Spec.permissive_drop;
                         [no_character shapes|]])].

Ltac permissive_cut_short shapes :=
  exists []; split; [reflexivity|];
  solve [repeat (first [apply Spec.permissive_end
                       | apply Spec.permissive_drop;
                         [no_character shapes|]])].

Ltac permissive_kept IH encoded tl :=
  let t := fresh "t" in
  let Hign := fresh "Hign" in
  let Hperm := fresh "Hperm" in
  let Hs := fresh "Hs" in
  let He := fresh "He" in
  destruct (IH tl ltac:(simpl in *; lia)) as (t & Hign & Hperm);
  eexists; split; [rewrite Hign; reflexivity|];
  tests_to_arith;
  match goal with
  | |- Spec.permissive ?bs (?cp :: _) =>
    assert (Spec.is_scalar cp = true /\ bs = Spec.utf8_encode cp ++ tl)
      as [Hs He] by (apply encoded; lia)
  end;
  rewrite He; apply Spec.permissive_keep; assumption.

(** ** Facts about the primitives *)

Lemma byte_val_range (b : byte) : 0 <= byte_val b < 256.
Proof.
  unfold byte_val. pose proof (Byte.to_N_bounded b). lia.
Qed.

Lemma byte_val_inj (a b : byte) : byte_val a = byte_val b -> a = b.
Proof.
  unfold byte_val. intros H. apply N2Z.inj in H.
  pose proof (Byte.of_to_N a) as Ha. rewrite H, Byte.of_to_N in Ha.
  congruence.
Qed.

Lemma byte_val_of_Z (z : Z) : byte_val (byte_of_Z z) = z mod 256.
Proof.
  unfold byte_of_Z, byte_val.
  pose proof (Z.mod_pos_bound z 256 ltac:(lia)) as Hr.
  destruct (Byte.of_N (Z.to_N (z mod 256))) as [b|] eqn:Hb.
  - apply Byte.to_of_N in Hb. rewrite Hb. lia.
  - apply Byte.of_N_None_iff in Hb. lia.
Qed.

Lemma byte_of_Z_val (b : byte) : byte_of_Z (byte_val b) = b.
Proof.
  apply byte_val_inj. rewrite byte_val_of_Z.
  pose proof (byte_val_range b). apply Z.mod_small. lia.
Qed.

Lemma len_nonneg {A} (l : list A) : 0 <= len l.
Proof. unfold len. lia. Qed.

Lemma len_app {A} (l k : list A) : len (l ++ k) = len l + len k.
Proof. unfold len. rewrite length_app. lia. Qed.

Lemma len_cons {A} (x : A) (l : list A) : len (x :: l) = 1 + len l.
Proof. unfold len. simpl. lia. Qed.

Lemma getitem_app (pre : list byte) (b : byte) (post : list byte) :
  getitem (pre ++ b :: post) (len pre) = Ok (byte_val b).
Proof.
  unfold getitem. pose proof (len_nonneg pre) as Hp.
  destruct (len pre <? 0) eqn:Hn; [apply Z.ltb_lt in Hn; lia|].
  rewrite len_app, len_cons. pose proof (len_nonneg post).
  replace ((0 <=? len pre) && (len pre <? len pre + (1 + len post))) with true
    by (symmetry; apply andb_true_intro; split;
        [apply Z.leb_le | apply Z.ltb_lt]; lia).
  unfold len. rewrite Nat2Z.id.
  rewrite list_lookup_middle by reflexivity. reflexivity.
Qed.

Lemma slice_app {A} (data pre mid post : list A) (a b : Z) :
  data = pre ++ mid ++ post -> a = len pre -> b = len pre + len mid ->
  slice data a b = mid.
Proof.
  intros -> -> ->. unfold slice, clamp.
  pose proof (len_nonneg pre). pose proof (len_nonneg mid).
  pose proof (len_nonneg post).
  rewrite !len_app.
  destruct (len pre <? 0) eqn:Ha; [apply Z.ltb_lt in Ha; lia|].
  destruct (len pre + len mid <? 0) eqn:Hb; [apply Z.ltb_lt in Hb; lia|].
  rewrite !Z.min_l by lia.
  replace (len pre + len mid - len pre) with (len mid) by lia.
  unfold len. rewrite !Nat2Z.id.
  rewrite drop_app_length. apply take_app_length.
Qed.

Lemma int_from_le_bytes (n : nat) (z : Z) :
  0 <= z < 256 ^ Z.of_nat n -> int_from_bytes_little (le_bytes n z) = z.
Proof.
  revert z. induction n as [|n IH]; intros z Hz.
  - simpl in *. lia.
  - cbn [le_bytes int_from_bytes_little].
    rewrite byte_val_of_Z, IH.
    + pose proof (Z.div_mod z 256 ltac:(lia)). lia.
    + rewrite Nat2Z.inj_succ, Z.pow_succ_r in Hz by lia.
      split; [apply Z.div_pos; lia|].
      apply Z.div_lt_upper_bound; lia.
Qed.

Lemma length_le_bytes (n : nat) (z : Z) : length (le_bytes n z) = n.
Proof. revert z. induction n; intros; simpl; auto. Qed.

(** ** The parser loop, one pass at a time *)

Lemma int_from_bytes_little_nonneg (bs : list byte) :
  0 <= int_from_bytes_little bs.
Proof.
  induction bs as [|b bs IH]; simpl; [lia|].
  unfold byte_val. lia.
Qed.

(** Every pass that goes round again moves the cursor forward by at least
    the three header bytes and keeps it inside the buffer. *)
Lemma tlv_iter_next (data : list byte) (i : Z) out i' out' :
  tlv_iter data i out = Ok (Next i' out') ->
  i + 3 <= i' <= len data.
Proof.
  unfold tlv_iter.
  destruct (i + 3 <=? len data) eqn:Hc; [|discriminate].
  destruct (getitem data i) as [a|e]; simpl; [|discriminate].
  pose proof (int_from_bytes_little_nonneg (slice data (i + 1) (i + 3))) as Hn.
  destruct (_ >? _) eqn:Hb; [discriminate|].
  intros [= <- <-].
  rewrite Z.gtb_ltb in Hb. apply Z.ltb_ge in Hb. lia.
Qed.

Lemma tlv_loop_eq (data : list byte) (i : Z) out :
  tlv_loop data i out =
  match tlv_iter data i out with
  | Raise e => Raise e
  | Ok (Stop out') => Ok out'
  | Ok (Next i' out') => tlv_loop data i' out'
  end.
Proof.
  funelim (tlv_loop data i out);
    match goal with E : tlv_iter _ _ _ = _ |- _ => rewrite E end;
    reflexivity.
Qed.

(** With the cursor inside the buffer a pass never raises. *)
Lemma tlv_iter_ok (data : list byte) (i : Z) out :
  0 <= i -> exists c, tlv_iter data i out = Ok c.
Proof.
  intros Hi. unfold tlv_iter.
  destruct (i + 3 <=? len data) eqn:Hc; [|eauto].
  apply Z.leb_le in Hc.
  unfold getitem.
  destruct (i <? 0) eqn:Hn; [apply Z.ltb_lt in Hn; lia|].
  replace ((0 <=? i) && (i <? len data)) with true
    by (symmetry; apply andb_true_intro; split;
        [apply Z.leb_le | apply Z.ltb_lt]; lia).
  destruct (data !! Z.to_nat i) as [b|] eqn:Hb.
  - simpl. destruct (_ >? _); eauto.
  - apply lookup_ge_None in Hb. unfold len in Hc. lia.
Qed.

Lemma tlv_loop_ok (data : list byte) (i : Z) out :
  0 <= i -> exists out', tlv_loop data i out = Ok out'.
Proof.
  remember (Z.to_nat (len data - i)) as m eqn:Hm.
  revert i out Hm.
  induction (lt_wf m) as [m _ IH]; intros i out -> Hi.
  rewrite tlv_loop_eq.
  destruct (tlv_iter_ok data i out Hi) as [[out'|i' out'] Hc]; rewrite Hc.
  - eauto.
  - apply tlv_iter_next in Hc.
    apply (IH (Z.to_nat (len data - i'))); [lia | reflexivity | lia].
Qed.

(** ** The parser on a buffer split into records and a rest *)

Lemma tlv_iter_short (pre tail : list byte) out :
  len tail < 3 -> tlv_iter (pre ++ tail) (len pre) out = Ok (Stop out).
Proof.
  intros Ht. unfold tlv_iter. rewrite len_app.
  destruct (_ <=? _) eqn:Hc; [apply Z.leb_le in Hc; lia | reflexivity].
Qed.

Lemma tlv_iter_header (pre : list byte) (k lo hi : byte) (rest : list byte) out :
  tlv_iter (pre ++ k :: lo :: hi :: rest) (len pre) out =
  let n := byte_val lo + 256 * byte_val hi in
  if len rest <? n then Ok (Stop out)
  else Ok (Next (len pre + 3 + n)
                (<[byte_val k := take (Z.to_nat n) rest]> out)).
Proof.
  pose proof (byte_val_range lo) as Hlo. pose proof (byte_val_range hi) as Hhi.
  pose proof (len_nonneg rest) as Hr.
  unfold tlv_iter.
  rewrite getitem_app, len_app, !len_cons.
  destruct (_ <=? _) eqn:Hc; [|apply Z.leb_gt in Hc; lia].
  cbn [mbind result_bind Py.bind].
  rewrite (slice_app _ (pre ++ [k]) [lo; hi] rest)
    by (rewrite <- ?app_assoc, ?len_app; unfold len; simpl; first [reflexivity | lia]).
  cbn [int_from_bytes_little].
  replace (byte_val lo + 256 * (byte_val hi + 256 * 0))
    with (byte_val lo + 256 * byte_val hi) by lia.
  cbv zeta. set (n := byte_val lo + 256 * byte_val hi) in *.
  rewrite Z.gtb_ltb.
  destruct (len rest <? n) eqn:Hn.
  - apply Z.ltb_lt in Hn.
    destruct (_ <? _) eqn:Hb; [reflexivity | apply Z.ltb_ge in Hb; lia].
  - apply Z.ltb_ge in Hn.
    destruct (_ <? _) eqn:Hb; [apply Z.ltb_lt in Hb; lia|].
    do 3 f_equal.
    rewrite <- (take_drop (Z.to_nat n) rest) at 1.
    apply (slice_app _ (pre ++ [k; lo; hi]) (take (Z.to_nat n) rest)
                     (drop (Z.to_nat n) rest)).
    + rewrite <- app_assoc. reflexivity.
    + rewrite len_app. unfold len. simpl. lia.
    + rewrite len_app. unfold len in *. rewrite length_take. simpl. lia.
Qed.

Lemma tlv_loop_records (rs : list Spec.record) (pre tail : list byte) out :
  forallb Spec.fits rs = true -> Spec.stops tail = true ->
  tlv_loop (pre ++ Spec.records_bytes rs ++ tail) (len pre) out =
  Ok (fold_left (fun m r => <[byte_val r.1 := r.2]> m) rs out).
Proof.
  intros Hfit Hstop. revert pre out Hfit.
  induction rs as [|[k v] rs IH]; intros pre out Hfit.
  - cbn [Spec.records_bytes map concat app fold_left].
    rewrite tlv_loop_eq.
    destruct tail as [|k [|lo [|hi rest]]];
      try (rewrite tlv_iter_short by (unfold len; simpl; lia); reflexivity).
    rewrite tlv_iter_header. cbv zeta.
    simpl in Hstop. rewrite Hstop. reflexivity.
  - cbn [forallb] in Hfit. apply andb_true_iff in Hfit as [Hv Hfit].
    unfold Spec.fits in Hv. cbn [snd] in Hv. apply Z.ltb_lt in Hv.
    pose proof (len_nonneg v) as Hv0.
    cbn [Spec.records_bytes map concat fold_left fst snd].
    fold (Spec.records_bytes rs).
    unfold Spec.record_bytes at 1. cbn [fst snd le_bytes].
    rewrite <- !app_assoc, <- !app_comm_cons. cbn [app].
    rewrite tlv_loop_eq, tlv_iter_header. cbv zeta.
    rewrite !byte_val_of_Z.
    assert (len v `mod` 256 + 256 * ((len v / 256) `mod` 256) = len v) as Hn.
    { rewrite (Z.mod_small (len v / 256)).
      - pose proof (Z.div_mod (len v) 256 ltac:(lia)). lia.
      - split; [apply Z.div_pos; lia | apply Z.div_lt_upper_bound; lia]. }
    rewrite Hn. rewrite len_app.
    destruct (_ <? _) eqn:Hb; [apply Z.ltb_lt in Hb; pose proof (len_nonneg (Spec.records_bytes rs ++ tail)); lia|].
    replace (Z.to_nat (len v)) with (length v) by (unfold len; lia).
    rewrite take_app_length.
    specialize (IH (pre ++ k :: byte_of_Z (len v) :: byte_of_Z (len v / 256) :: v) (<[byte_val k := v]> out) Hfit).
    rewrite <- app_assoc, <- !app_comm_cons in IH.
    rewrite <- IH. f_equal.
    rewrite len_app, !len_cons. lia.
Qed.

(** Every buffer splits into the records the parser accepts and the rest
    at which it stops. *)
Lemma tlv_split (data : list byte) :
  exists rs tail,
    data = Spec.records_bytes rs ++ tail /\
    forallb Spec.fits rs = true /\ Spec.stops tail = true.
Proof.
  remember (length data) as m eqn:Hm. revert data Hm.
  induction (lt_wf m) as [m _ IH]; intros data ->.
  destruct (Spec.stops data) eqn:Hs.
  { exists [], data. auto. }
  destruct data as [|k [|lo [|hi rest]]]; try discriminate.
  simpl in Hs. apply Z.ltb_ge in Hs.
  pose proof (byte_val_range lo) as Hlo. pose proof (byte_val_range hi) as Hhi.
  set (n := byte_val lo + 256 * byte_val hi) in *.
  assert (len (take (Z.to_nat n) rest) = n) as Hlen
    by (unfold len in *; rewrite length_take; lia).
  destruct (IH (length (drop (Z.to_nat n) rest))
               ltac:(rewrite length_drop; simpl; lia)
               (drop (Z.to_nat n) rest) eq_refl)
    as (rs & tail & Hd & Hfit & Hstop).
  exists ((k, take (Z.to_nat n) rest) :: rs), tail.
  split; [|split; [|exact Hstop]].
  - cbn [Spec.records_bytes map concat]. fold (Spec.records_bytes rs).
    unfold Spec.record_bytes. cbn [fst snd le_bytes].
    rewrite Hlen, <- app_assoc, <- Hd. cbn [app]. rewrite take_drop.
    replace (byte_of_Z n) with lo.
    2:{ apply byte_val_inj. rewrite byte_val_of_Z. subst n.
        rewrite (Z.mul_comm 256), Z.mod_add by lia.
        symmetry. apply Z.mod_small. lia. }
    replace (byte_of_Z (n / 256)) with hi.
    2:{ apply byte_val_inj. rewrite byte_val_of_Z. subst n.
        rewrite (Z.mul_comm 256), Z.div_add by lia.
        rewrite (Z.div_small (byte_val lo)) by lia.
        rewrite Z.add_0_l. symmetry. apply Z.mod_small. lia. }
    reflexivity.
  - cbn [forallb]. rewrite Hfit, andb_true_r.
    unfold Spec.fits. cbn [snd]. rewrite Hlen. apply Z.ltb_lt. lia.
Qed.

Lemma parse_tlv_records (rs : list Spec.record) (tail : list byte) :
  forallb Spec.fits rs = true -> Spec.stops tail = true ->
  _parse_tlv_attributes (Spec.records_bytes rs ++ tail) = Ok (Spec.mapping rs).
Proof.
  intros Hfit Hstop. unfold _parse_tlv_attributes, Spec.mapping.
  apply (tlv_loop_records rs [] tail ∅ Hfit Hstop).
Qed.

(** ** Claims about the TLV parser *)

Lemma mapping_fold_lookup (k : byte) (rs : list Spec.record)
      (m : gmap Z (list byte)) :
  fold_left (fun m r => <[byte_val r.1 := r.2]> m) rs m !! byte_val k =
  match Spec.last_value k rs with
  | Some v => Some v
  | None => m !! byte_val k
  end.
Proof.
  unfold Spec.last_value. revert m.
  induction rs as [|[k' v'] rs IH]; intros m; [reflexivity|].
  cbn [fold_left fst snd]. rewrite IH, filter_cons. cbn [fst].
  destruct (decide (byte_val k' = byte_val k)) as [Hk|Hk].
  - rewrite Hk, lookup_insert_eq, last_cons.
    destruct (last _); reflexivity.
  - rewrite lookup_insert_ne by exact Hk. reflexivity.
Qed.

(** C1. For every byte buffer the TLV attribute parser consumes the
    records [{attributeKind: 1 byte, length: u16 little-endian, value}]
    at its front and stops as soon as fewer than 3 bytes remain or a
    declared length runs past the end of the buffer: the buffer is a
    sequence of complete records followed by a rest at which parsing
    stops, and the result is, without any error, the mapping of exactly
    those records. [01 05 00 "Hello" 03 03 00 "Hi!"] gives
    [{Title: "Hello", Message: "Hi!"}]; without its final byte it gives
    [{Title: "Hello"}]. *)
Theorem parse_tlv_partial_result :
  (forall data : list byte,
     exists (rs : list Spec.record) (tail : list byte),
       data = Spec.records_bytes rs ++ tail /\
       forallb Spec.fits rs = true /\
       Spec.stops tail = true /\
       _parse_tlv_attributes data = Ok (Spec.mapping rs)) /\
  _parse_tlv_attributes
    [x01; x05; x00; x48; x65; x6c; x6c; x6f; x03; x03; x00; x48; x69; x21]
  = Ok {[ NA_TITLE := [x48; x65; x6c; x6c; x6f];
          NA_MESSAGE := [x48; x69; x21] ]} /\
  _parse_tlv_attributes
    [x01; x05; x00; x48; x65; x6c; x6c; x6f; x03; x03; x00; x48; x69]
  = Ok {[ NA_TITLE := [x48; x65; x6c; x6c; x6f] ]}.
Proof.
  split; [|split; reflexivity].
  intros data.
  destruct (tlv_split data) as (rs & tail & -> & Hfit & Hstop).
  exists rs, tail. repeat split; try assumption.
  apply parse_tlv_records; assumption.
Qed.

(** C9. When a buffer holds two or more complete records of the same
    attribute kind, the parsed mapping binds that kind to the value of the
    last of them: earlier occurrences are overwritten. (The statement
    covers any number of occurrences, from one on.) *)
Theorem parse_tlv_last_wins (rs : list Spec.record) (tail : list byte)
        (k : byte) (v : list byte) :
  forallb Spec.fits rs = true ->
  Spec.stops tail = true ->
  Spec.last_value k rs = Some v ->
  exists out,
    _parse_tlv_attributes (Spec.records_bytes rs ++ tail) = Ok out /\
    out !! byte_val k = Some v.
Proof.
  intros Hfit Hstop Hlast.
  exists (Spec.mapping rs). split.
  - apply parse_tlv_records; assumption.
  - unfold Spec.mapping. rewrite mapping_fold_lookup, Hlast. reflexivity.
Qed.

Lemma parse_tlv_last_wins_witness :
  exists out,
    _parse_tlv_attributes
      (Spec.records_bytes
         [(x01, [x41]); (x03, [x42; x43]); (x01, [x44]); (x01, [x45; x46])]
       ++ [x01; x09; x00; x47]) = Ok out /\
    out !! byte_val x01 = Some [x45; x46].
Proof.
  apply (parse_tlv_last_wins
           [(x01, [x41]); (x03, [x42; x43]); (x01, [x44]); (x01, [x45; x46])]
           [x01; x09; x00; x47] x01 [x45; x46]);
    reflexivity.
Defined.

(** C10. The TLV attribute parser is total: for every buffer it returns a
    mapping and never raises. Every pass through the loop body with the
    cursor at a position [i >= 0] reads inside the buffer (no
    [IndexError]) and, when the loop goes round again, has moved the
    cursor forward by at least 3 bytes without leaving the buffer. *)
Theorem parse_tlv_total (data : list byte) :
  (exists out, _parse_tlv_attributes data = Ok out) /\
  (forall (i : Z) (out : gmap Z (list byte)),
     0 <= i ->
     exists c, tlv_iter data i out = Ok c /\
               match c with
               | Next i' _ => i + 3 <= i' <= len data
               | Stop _ => True
               end).
Proof.
  split.
  - apply tlv_loop_ok. lia.
  - intros i out Hi.
    destruct (tlv_iter_ok data i out Hi) as [c Hc].
    exists c. split; [exact Hc|].
    destruct c as [|i' out']; [exact I|].
    apply (tlv_iter_next _ _ _ _ _ Hc).
Qed.

Lemma parse_tlv_total_witness :
  exists c,
    tlv_iter [x01; x02; x00; x48; x69; x03] 0 ∅ = Ok c /\
    match c with
    | Next i' _ => 0 + 3 <= i' <= len [x01; x02; x00; x48; x69; x03]
    | Stop _ => True
    end.
Proof.
  apply (proj2 (parse_tlv_total [x01; x02; x00; x48; x69; x03]) 0 ∅).
  lia.
Defined.

(** ** The notification-source handler *)

Lemma getitem_lookup (data : list byte) (i : Z) (b : byte) :
  0 <= i -> data !! Z.to_nat i = Some b -> getitem data i = Ok (byte_val b).
Proof.
  intros Hi Hb. unfold getitem.
  pose proof (lookup_lt_Some _ _ _ Hb) as Hlt.
  destruct (i <? 0) eqn:Hn; [apply Z.ltb_lt in Hn; lia|].
  replace ((0 <=? i) && (i <? len data)) with true
    by (symmetry; apply andb_true_intro; split;
        [apply Z.leb_le | apply Z.ltb_lt]; unfold len; lia).
  rewrite Hb. reflexivity.
Qed.

Lemma append_char_inj (c : ascii) (s1 s2 : string) :
  s1 +:+ String c "" = s2 +:+ String c "" -> s1 = s2.
Proof.
  revert s2. induction s1 as [|a s1 IH]; intros [|b s2]; cbn; intros H.
  - reflexivity.
  - injection H as _ H. destruct s2; discriminate.
  - injection H as _ H. destruct s1; discriminate.
  - injection H as -> H. f_equal. apply IH, H.
Qed.

(** The name of an unknown code carries the code. *)
Lemma unknown_inj (n m : Z) : unknown n = unknown m -> n = m.
Proof.
  unfold unknown. intros H.
  apply (inj (String.app "Unknown(")) in H.
  apply append_char_inj in H.
  apply (inj pretty) in H. exact H.
Qed.

Lemma categories_get (z : Z) :
  dict_get CATEGORIES z (unknown z) = Spec.category_name z.
Proof.
  destruct (decide (0 <= z < 12)) as [Hz|Hz].
  - assert (z = 0 \/ z = 1 \/ z = 2 \/ z = 3 \/ z = 4 \/ z = 5 \/ z = 6
            \/ z = 7 \/ z = 8 \/ z = 9 \/ z = 10 \/ z = 11) as Hc by lia.
    repeat (destruct Hc as [->|Hc]; [reflexivity|]). subst z. reflexivity.
  - unfold dict_get, CATEGORIES. cbn [list_to_map foldr fst snd].
    rewrite !lookup_insert_ne, lookup_empty by lia.
    destruct z as [|p|p]; [lia| |reflexivity].
    do 5 (try (destruct p as [p|p|]; try lia; try reflexivity)).
Qed.

Lemma event_names_get (z : Z) :
  dict_get EVENT_NAMES z (unknown z) = Spec.event_name z.
Proof.
  destruct (decide (0 <= z < 3)) as [Hz|Hz].
  - assert (z = 0 \/ z = 1 \/ z = 2) as Hc by lia.
    repeat (destruct Hc as [->|Hc]; [reflexivity|]). subst z. reflexivity.
  - unfold dict_get, EVENT_NAMES. cbn [list_to_map foldr fst snd].
    rewrite !lookup_insert_ne, lookup_empty by lia.
    destruct z as [|p|p]; [lia| |reflexivity].
    do 3 (try (destruct p as [p|p|]; try lia; try reflexivity)).
Qed.

(** What the handler does with a packet of eight bytes or more. *)
Lemma on_notification_source_eq (k f c n u0 u1 u2 u3 : byte)
      (rest : list byte) (self : ANCSMirror) :
  _on_notification_source (k :: f :: c :: n :: u0 :: u1 :: u2 :: u3 :: rest)
                          self =
  let uid := Spec.u32_le u0 u1 u2 u3 in
  let self1 :=
    print (NsEvent (Spec.event_name (byte_val k)) uid
                   (Spec.category_name (byte_val c)) (byte_val n)
                   (byte_val f)) self in
  Ok (if byte_val k =? 0 then create_task uid self1
      else if byte_val k =? 2 then
        set_pending (delete uid (pending self)) self1
      else self1).
Proof.
  unfold _on_notification_source.
  destruct (_ <? 8) eqn:Hl;
    [apply Z.ltb_lt in Hl; unfold len in Hl; simpl in Hl; lia|].
  rewrite (getitem_lookup _ 0 k), (getitem_lookup _ 1 f),
    (getitem_lookup _ 2 c), (getitem_lookup _ 3 n) by (reflexivity || lia).
  cbn [mbind result_bind Py.bind].
  rewrite (slice_app _ [k; f; c; n] [u0; u1; u2; u3] rest 4 8)
    by reflexivity.
  rewrite categories_get, event_names_get.
  replace (int_from_bytes_little [u0; u1; u2; u3])
    with (Spec.u32_le u0 u1 u2 u3)
    by (unfold Spec.u32_le; cbn [int_from_bytes_little]; lia).
  unfold EVENT_ADDED, EVENT_REMOVED, dict_pop. cbn [snd pending print].
  cbv zeta.
  destruct (byte_val k =? 0); [reflexivity|].
  destruct (byte_val k =? 2); reflexivity.
Qed.

Lemma len_ge_8 (data : list byte) :
  8 <= len data ->
  exists k f c n u0 u1 u2 u3 rest,
    data = k :: f :: c :: n :: u0 :: u1 :: u2 :: u3 :: rest.
Proof.
  intros H.
  do 8 (destruct data as [|? data]; [unfold len in H; simpl in H; lia|]).
  repeat eexists.
Qed.

(** ** Claims about the notification-source handler and the pending table *)

(** C2. A packet of at least 8 bytes is decoded field by field: byte 0 is
    the event kind (0=Added, 1=Modified, 2=Removed, any other code an
    unknown kind naming the code), byte 1 the flags as they are, byte 2 the
    category through the table 0 to 11 (any other code an unknown category
    naming the code), byte 3 the category count, bytes 4 to 7 the
    little-endian u32 uid; the bytes after offset 8 play no part. The
    packet [00 01 04 01 2A 00 00 00] decodes to Added, flags 1, Social,
    count 1, uid 42. *)
Theorem notification_source_decodes (k f c n u0 u1 u2 u3 : byte)
        (rest : list byte) (self : ANCSMirror) :
  (exists self',
     _on_notification_source
       (k :: f :: c :: n :: u0 :: u1 :: u2 :: u3 :: rest) self = Ok self' /\
     stdout self' =
     stdout self ++
       [NsEvent (Spec.event_name (byte_val k)) (Spec.u32_le u0 u1 u2 u3)
                (Spec.category_name (byte_val c)) (byte_val n) (byte_val f)])
  /\
  (exists self',
     _on_notification_source [x00; x01; x04; x01; x2a; x00; x00; x00] self
     = Ok self' /\
     stdout self' = stdout self ++ [NsEvent "Added" 42 "Social" 1 1]).
Proof.
  split.
  - rewrite on_notification_source_eq. cbv zeta.
    eexists. split; [reflexivity|].
    destruct (byte_val k =? 0); [reflexivity|].
    destruct (byte_val k =? 2); reflexivity.
  - rewrite on_notification_source_eq.
    eexists. split; reflexivity.
Qed.

(** C5. A packet shorter than 8 bytes is reported as a short packet and
    dropped: the handler returns normally, having printed the short-packet
    line and changed nothing else. A packet of 8 bytes or more is never
    refused and never fails, whatever its event and category codes: the
    handler returns normally and what it prints is the decoded event, not
    a short-packet line. *)
Theorem notification_source_short_packet (data : list byte)
        (self : ANCSMirror) :
  (len data < 8 ->
   _on_notification_source data self = Ok (print (NsShortPacket data) self))
  /\
  (8 <= len data ->
   exists (k f c n u0 u1 u2 u3 : byte) (rest : list byte)
          (self' : ANCSMirror),
     data = k :: f :: c :: n :: u0 :: u1 :: u2 :: u3 :: rest /\
     _on_notification_source data self = Ok self' /\
     stdout self' =
     stdout self ++
       [NsEvent (Spec.event_name (byte_val k)) (Spec.u32_le u0 u1 u2 u3)
                (Spec.category_name (byte_val c)) (byte_val n)
                (byte_val f)]).
Proof.
  split.
  - intros H. unfold _on_notification_source.
    destruct (_ <? _) eqn:Hl; [reflexivity | apply Z.ltb_ge in Hl; lia].
  - intros H.
    destruct (len_ge_8 data H)
      as (k & f & c & n & u0 & u1 & u2 & u3 & rest & ->).
    exists k, f, c, n, u0, u1, u2, u3, rest.
    rewrite on_notification_source_eq. cbv zeta.
    eexists. split; [reflexivity|]. split; [reflexivity|].
    destruct (byte_val k =? 0); [reflexivity|].
    destruct (byte_val k =? 2); reflexivity.
Qed.

Lemma notification_source_short_packet_witness :
  _on_notification_source [x00; x01; x04; x01; x2a; x00; x00]
                          (mkANCSMirror true ∅ [] [] [])
  = Ok (print (NsShortPacket [x00; x01; x04; x01; x2a; x00; x00])
              (mkANCSMirror true ∅ [] [] []))
  /\
  exists self',
    _on_notification_source [x63; x01; xc8; x01; x2a; x00; x00; x00; x07]
                            (mkANCSMirror true ∅ [] [] [])
    = Ok self' /\
    stdout self' = [NsEvent "Unknown(99)" 42 "Unknown(200)" 1 1].
Proof.
  split.
  - apply (proj1 (notification_source_short_packet
                    [x00; x01; x04; x01; x2a; x00; x00]
                    (mkANCSMirror true ∅ [] [] []))).
    reflexivity.
  - destruct (proj2 (notification_source_short_packet
                       [x63; x01; xc8; x01; x2a; x00; x00; x00; x07]
                       (mkANCSMirror true ∅ [] [] []))
                    ltac:(vm_compute; discriminate))
      as (k & f & c & n & u0 & u1 & u2 & u3 & rest & self' & Hd & Hr & Hs).
    injection Hd as <- <- <- <- <- <- <- <- <-.
    exists self'. split; [exact Hr | exact Hs].
Defined.

(** C6. A Removed event for a uid removes the pending entry of that uid,
    if there is one, prints nothing but the event line (no summary),
    schedules no request and writes no command. A Modified event changes
    nothing but the printed event line: no request is scheduled, no
    command is written and the pending table is as before. *)
Theorem removed_and_modified_events (f c n u0 u1 u2 u3 : byte)
        (rest : list byte) (self : ANCSMirror) :
  (exists self',
     _on_notification_source
       (x02 :: f :: c :: n :: u0 :: u1 :: u2 :: u3 :: rest) self = Ok self' /\
     pending self' = delete (Spec.u32_le u0 u1 u2 u3) (pending self) /\
     pending self' !! Spec.u32_le u0 u1 u2 u3 = None /\
     stdout self' =
     stdout self ++
       [NsEvent "Removed" (Spec.u32_le u0 u1 u2 u3)
                (Spec.category_name (byte_val c)) (byte_val n) (byte_val f)] /\
     tasks self' = tasks self /\
     written self' = written self)
  /\
  (exists self',
     _on_notification_source
       (x01 :: f :: c :: n :: u0 :: u1 :: u2 :: u3 :: rest) self = Ok self' /\
     pending self' = pending self /\
     stdout self' =
     stdout self ++
       [NsEvent "Modified" (Spec.u32_le u0 u1 u2 u3)
                (Spec.category_name (byte_val c)) (byte_val n) (byte_val f)] /\
     tasks self' = tasks self /\
     written self' = written self).
Proof.
  split; rewrite on_notification_source_eq; cbv zeta;
    eexists; (split; [reflexivity|]); cbn.
  - repeat split. apply lookup_delete_eq.
  - repeat split.
Qed.

(** C8. Removing a uid that is not in the pending table returns nothing
    and leaves the table as it is, without any error; so removing twice is
    the same as removing once, and a Removed event for a uid that is not
    pending leaves the table unchanged. *)
Theorem pending_remove_absent (p : gmap Z PendingRequest) (uid : Z) :
  (p !! uid = None -> dict_pop p uid = (None, p))
  /\
  dict_pop (snd (dict_pop p uid)) uid = (None, snd (dict_pop p uid))
  /\
  (forall (f c n u0 u1 u2 u3 : byte) (rest : list byte) (self : ANCSMirror),
     pending self !! Spec.u32_le u0 u1 u2 u3 = None ->
     exists self',
       _on_notification_source
         (x02 :: f :: c :: n :: u0 :: u1 :: u2 :: u3 :: rest) self
       = Ok self' /\
       pending self' = pending self).
Proof.
  assert (forall (q : gmap Z PendingRequest) k,
             q !! k = None -> dict_pop q k = (None, q)) as Habs.
  { intros q k H. unfold dict_pop. rewrite H, delete_id by exact H.
    reflexivity. }
  split; [apply Habs|split].
  - apply Habs. cbn. apply lookup_delete_eq.
  - intros f c n u0 u1 u2 u3 rest self H.
    rewrite on_notification_source_eq. cbv zeta.
    eexists. split; [reflexivity|]. cbn. apply delete_id, H.
Qed.

Lemma pending_remove_absent_witness :
  dict_pop ({[ 7 := mkPendingRequest 7 "notification_attributes" ]}
              : gmap Z PendingRequest) 42
  = (None, {[ 7 := mkPendingRequest 7 "notification_attributes" ]})
  /\
  exists self',
    _on_notification_source
      [x02; x00; x04; x01; x2a; x00; x00; x00]
      (mkANCSMirror true
         {[ 7 := mkPendingRequest 7 "notification_attributes" ]} [] [] [])
    = Ok self' /\
    pending self' = {[ 7 := mkPendingRequest 7 "notification_attributes" ]}.
Proof.
  split.
  - apply (proj1 (pending_remove_absent
                    {[ 7 := mkPendingRequest 7 "notification_attributes" ]}
                    42)).
    reflexivity.
  - exact (proj2 (proj2 (pending_remove_absent ∅ 0))
                 x00 x04 x01 x2a x00 x00 x00 []
                 (mkANCSMirror true
                    {[ 7 := mkPendingRequest 7 "notification_attributes" ]}
                    [] [] [])
                 eq_refl).
Defined.

(** ** The attribute request *)

Lemma u32_le_bytes (uid : Z) :
  0 <= uid < 2 ^ 32 ->
  exists b0 b1 b2 b3,
    le_bytes 4 uid = [b0; b1; b2; b3] /\ Spec.u32_le b0 b1 b2 b3 = uid.
Proof.
  intros H. pose proof (int_from_le_bytes 4 uid H) as Hi.
  cbn [le_bytes] in *. do 4 eexists. split; [reflexivity|].
  unfold Spec.u32_le. cbn [int_from_bytes_little] in Hi. lia.
Qed.

Lemma attributes_roundtrip (attrs : list Spec.attribute) :
  forallb Spec.well_formed attrs = true ->
  Spec.attributes_of_bytes (concat (map Spec.attribute_bytes attrs))
  = Some attrs.
Proof.
  induction attrs as [|[k m] attrs IH]; [reflexivity|].
  cbn [forallb map concat]. intros H.
  apply andb_true_iff in H as [Hw H]. specialize (IH H).
  unfold Spec.well_formed in Hw. cbn [fst snd] in Hw.
  apply andb_true_iff in Hw as [Hk Hm].
  apply andb_true_iff in Hk as [Hk0 Hk1].
  apply Z.leb_le in Hk0. apply Z.ltb_lt in Hk1.
  unfold Spec.attribute_bytes at 1. cbn [fst snd].
  assert (byte_val (byte_of_Z k) = k) as Hbk
    by (rewrite byte_val_of_Z; apply Z.mod_small; lia).
  destruct m as [n|].
  - apply andb_true_iff in Hm as [Hm Hn1].
    apply andb_true_iff in Hm as [Hv Hn0].
    apply Z.leb_le in Hn0. apply Z.ltb_lt in Hn1.
    rewrite Hv. cbn [le_bytes app Spec.attributes_of_bytes].
    rewrite Hbk, Hv, IH. cbn.
    pose proof (int_from_le_bytes 2 n ltac:(lia)) as Hi.
    cbn [le_bytes int_from_bytes_little] in Hi.
    unfold Spec.u16_le. do 4 f_equal. lia.
  - apply negb_true_iff in Hm.
    cbn [app Spec.attributes_of_bytes].
    rewrite Hbk, Hm, IH. reflexivity.
Qed.

(** A command written as the specification lays it out reads back as the
    uid and the attribute list it was made from. *)
Lemma command_roundtrip (uid : Z) (attrs : list Spec.attribute) :
  0 <= uid < 2 ^ 32 ->
  forallb Spec.well_formed attrs = true ->
  Spec.command_of_bytes (Spec.command_bytes uid attrs) = Some (0, uid, attrs).
Proof.
  intros Hu Hw. unfold Spec.command_bytes.
  destruct (u32_le_bytes uid Hu) as (b0 & b1 & b2 & b3 & -> & Hb).
  cbn [app Spec.command_of_bytes].
  rewrite attributes_roundtrip by exact Hw.
  cbn. rewrite Hb. reflexivity.
Qed.

Lemma build_command_eq (uid : Z) :
  0 <= uid < 2 ^ 32 ->
  build_command uid = Ok (Spec.command_bytes uid Spec.requested).
Proof.
  intros Hu. unfold build_command, int_to_bytes_little.
  replace ((0 <=? uid) && (uid <? 256 ^ Z.of_nat 4)) with true
    by (symmetry; apply andb_true_intro; split;
        [apply Z.leb_le | apply Z.ltb_lt]; lia).
  reflexivity.
Qed.

Lemma request_finish_failed (uid : Z) (e : string) (self : ANCSMirror) :
  request_finish uid (WriteFailed e) self =
  mkANCSMirror (client self) (delete uid (pending self))
               (stdout self ++ [CpWriteFailed e]) (tasks self) (written self).
Proof. reflexivity. Qed.

(** ** Claims about the attribute request *)

(** C3. For every u32 uid the command built for the request is the
    command id byte 0, the uid as 4 little-endian bytes, then the kinds in
    order: application identifier (kind byte only), title followed by its
    maximum length 64 as 2 little-endian bytes, message followed by its
    maximum length 256 as 2 little-endian bytes. This is the layout of the
    specification for [AppIdentifier, Title(64), Message(256)], so reading
    the bytes back gives the uid and the same ordered kinds; and it is the
    payload handed to the transport. *)
Theorem request_command_layout (uid : Z) :
  0 <= uid < 2 ^ 32 ->
  exists cmd,
    build_command uid = Ok cmd /\
    cmd = [x00] ++ le_bytes 4 uid ++ [x00; x01; x40; x00; x03; x00; x01] /\
    cmd = Spec.command_bytes uid [(0, None); (1, Some 64); (3, Some 256)] /\
    Spec.command_of_bytes cmd
    = Some (0, uid, [(0, None); (1, Some 64); (3, Some 256)]) /\
    (forall self : ANCSMirror,
       client self = true ->
       exists self',
         request_start uid self = Ok (Some cmd, self') /\
         written self' = written self ++ [cmd]).
Proof.
  intros Hu. exists (Spec.command_bytes uid Spec.requested).
  split; [apply build_command_eq, Hu|].
  split; [reflexivity|]. split; [reflexivity|].
  split; [apply command_roundtrip; [exact Hu | reflexivity]|].
  intros self Hc. unfold request_start.
  rewrite Hc, build_command_eq by exact Hu.
  eexists. split; reflexivity.
Qed.

Lemma request_command_layout_witness :
  exists cmd,
    build_command 42 = Ok cmd /\
    cmd = [x00] ++ le_bytes 4 42 ++ [x00; x01; x40; x00; x03; x00; x01] /\
    cmd = Spec.command_bytes 42 [(0, None); (1, Some 64); (3, Some 256)] /\
    Spec.command_of_bytes cmd
    = Some (0, 42, [(0, None); (1, Some 64); (3, Some 256)]) /\
    (forall self : ANCSMirror,
       client self = true ->
       exists self',
         request_start 42 self = Ok (Some cmd, self') /\
         written self' = written self ++ [cmd]).
Proof.
  apply (request_command_layout 42). lia.
Defined.

(** C4, the claim as it is stated, fails when the uid already had a
    pending entry: after the failed write the table has lost that entry,
    it is not the table from before the request. *)
Lemma write_failure_not_as_before :
  exists self',
    _request_notification_attributes
      (fun _ => WriteFailed "write failed") 7
      (mkANCSMirror true
         {[ 7 := mkPendingRequest 7 "notification_attributes" ]} [] [] [])
    = Ok self' /\
    pending self' <>
    pending
      (mkANCSMirror true
         {[ 7 := mkPendingRequest 7 "notification_attributes" ]} [] [] []).
Proof.
  eexists. split; [reflexivity|].
  cbn. intros H.
  apply (f_equal (fun m : gmap Z PendingRequest => m !! 7)) in H.
  vm_compute in H. discriminate.
Qed.

(** C4, amended. When the write of the request for a uid fails, the
    pending entry for that uid is removed: the table is the one from
    before the request without the uid, which is the table from before
    the request when the uid was not pending then; the failure is printed,
    and the coroutine returns normally. Whatever ran while the write was
    awaited, resuming after the failure removes the uid from the table as
    it is then. *)
Theorem write_failure_removes_pending
        (write_gatt_char : list byte -> write_outcome) (uid : Z)
        (e : string) (self : ANCSMirror) :
  0 <= uid < 2 ^ 32 ->
  client self = true ->
  (forall cmd, build_command uid = Ok cmd ->
               write_gatt_char cmd = WriteFailed e) ->
  (exists self',
     _request_notification_attributes write_gatt_char uid self = Ok self' /\
     pending self' = delete uid (pending self) /\
     pending self' !! uid = None /\
     (pending self !! uid = None -> pending self' = pending self) /\
     stdout self' = stdout self ++ [CpWriteFailed e] /\
     client self' = client self /\
     tasks self' = tasks self)
  /\
  (forall later : ANCSMirror,
     pending (request_finish uid (WriteFailed e) later)
     = delete uid (pending later)).
Proof.
  intros Hu Hc Hw. split; [|reflexivity].
  unfold _request_notification_attributes, request_start.
  rewrite Hc, build_command_eq by exact Hu.
  cbn [negb mbind result_bind Py.bind].
  rewrite (Hw _ (build_command_eq uid Hu)), request_finish_failed.
  eexists. split; [reflexivity|]. cbn.
  rewrite delete_insert_eq.
  split; [reflexivity|].
  split; [apply lookup_delete_eq|].
  split; [intros H; apply delete_id, H|].
  repeat split. exact Hc.
Qed.

Lemma write_failure_removes_pending_witness :
  exists self',
    _request_notification_attributes
      (fun _ => WriteFailed "write failed") 42
      (mkANCSMirror true
         {[ 7 := mkPendingRequest 7 "notification_attributes" ]} [] [] [])
    = Ok self' /\
    pending self' = {[ 7 := mkPendingRequest 7 "notification_attributes" ]}.
Proof.
  destruct (proj1 (write_failure_removes_pending
                     (fun _ => WriteFailed "write failed") 42 "write failed"
                     (mkANCSMirror true
                        {[ 7 := mkPendingRequest 7 "notification_attributes" ]}
                        [] [] [])
                     ltac:(lia) eq_refl (fun _ _ => eq_refl)))
    as (self' & Hr & _ & _ & Hp & _).
  exists self'. split; [exact Hr|].
  apply Hp. reflexivity.
Defined.

(** ** Decoding and trimming text *)

Lemma is_scalar_true (cp : Z) :
  Spec.is_scalar cp = true <->
  0 <= cp <= 0x10FFFF /\ ~ (0xD800 <= cp <= 0xDFFF).
Proof.
  unfold Spec.is_scalar.
  rewrite !andb_true_iff, negb_true_iff, andb_false_iff,
    !Z.leb_le, !Z.leb_gt.
  lia.
Qed.

(** The four shapes of the encoding of a scalar value, with the ranges of
    the bytes and the value they stand for. *)
Lemma utf8_encode_shapes (cp : Z) :
  Spec.is_scalar cp = true ->
  (exists b1,
     Spec.utf8_encode cp = [b1] /\ byte_val b1 < 128 /\ cp = byte_val b1)
  \/
  (exists b1 b2,
     Spec.utf8_encode cp = [b1; b2] /\
     194 <= byte_val b1 < 224 /\ 128 <= byte_val b2 < 192 /\
     cp = (byte_val b1 - 192) * 64 + (byte_val b2 - 128))
  \/
  (exists b1 b2 b3,
     Spec.utf8_encode cp = [b1; b2; b3] /\
     224 <= byte_val b1 < 240 /\ 128 <= byte_val b2 < 192 /\
     128 <= byte_val b3 < 192 /\
     (byte_val b1 = 224 -> 160 <= byte_val b2) /\
     (byte_val b1 = 237 -> byte_val b2 < 160) /\
     cp = (byte_val b1 - 224) * 4096 + (byte_val b2 - 128) * 64
          + (byte_val b3 - 128))
  \/
  (exists b1 b2 b3 b4,
     Spec.utf8_encode cp = [b1; b2; b3; b4] /\
     240 <= byte_val b1 < 245 /\ 128 <= byte_val b2 < 192 /\
     128 <= byte_val b3 < 192 /\ 128 <= byte_val b4 < 192 /\
     (byte_val b1 = 240 -> 144 <= byte_val b2) /\
     (byte_val b1 = 244 -> byte_val b2 < 144) /\
     cp = (byte_val b1 - 240) * 262144 + (byte_val b2 - 128) * 4096
          + (byte_val b3 - 128) * 64 + (byte_val b4 - 128)).
Proof.
  intros Hs. apply is_scalar_true in Hs. unfold Spec.utf8_encode.
  destruct (cp <? 128) eqn:E1; [left|right].
  { eexists. split; [reflexivity|]. rewrite byte_val_of_Z.
    apply Z.ltb_lt in E1. Z.div_mod_to_equations. lia. }
  destruct (cp <? 2048) eqn:E2; [left|right].
  { do 2 eexists. split; [reflexivity|]. rewrite !byte_val_of_Z.
    apply Z.ltb_ge in E1. apply Z.ltb_lt in E2.
    Z.div_mod_to_equations. lia. }
  destruct (cp <? 65536) eqn:E3; [left|right].
  { do 3 eexists. split; [reflexivity|]. rewrite !byte_val_of_Z.
    apply Z.ltb_ge in E2. apply Z.ltb_lt in E3.
    Z.div_mod_to_equations. lia. }
  do 4 eexists. split; [reflexivity|]. rewrite !byte_val_of_Z.
  apply Z.ltb_ge in E3. Z.div_mod_to_equations. lia.
Qed.

(** What the decoder makes of one, two, three and four bytes is a scalar
    value, and these bytes are its encoding. *)
Lemma encode_decoded_1 (b1 : byte) (tl : list byte) :
  byte_val b1 < 128 ->
  Spec.is_scalar (byte_val b1) = true /\
  b1 :: tl = Spec.utf8_encode (byte_val b1) ++ tl.
Proof.
  intros H1. pose proof (byte_val_range b1).
  split; [apply is_scalar_true; lia|].
  unfold Spec.utf8_encode.
  destruct (_ <? 128) eqn:E; [|apply Z.ltb_ge in E; lia].
  rewrite byte_of_Z_val. reflexivity.
Qed.

Lemma encode_decoded_2 (b1 b2 : byte) (tl : list byte) :
  194 <= byte_val b1 < 224 ->
  128 <= byte_val b2 <= 191 ->
  Spec.is_scalar (Z.shiftl (Z.land (byte_val b1) 31) 6
                  + Z.land (byte_val b2) 63) = true /\
  b1 :: b2 :: tl
  = Spec.utf8_encode (Z.shiftl (Z.land (byte_val b1) 31) 6
                      + Z.land (byte_val b2) 63) ++ tl.
Proof.
  intros H1 H2. bits_to_arith.
  set (cp := _ + _).
  assert (cp = (byte_val b1 - 192) * 64 + (byte_val b2 - 128)) as Hcp
    by (subst cp; Z.div_mod_to_equations; lia).
  clearbody cp.
  split; [apply is_scalar_true; lia|].
  unfold Spec.utf8_encode.
  destruct (cp <? 128) eqn:E1; [apply Z.ltb_lt in E1; lia|].
  destruct (cp <? 2048) eqn:E2; [|apply Z.ltb_ge in E2; lia].
  cbn [app]. repeat f_equal; apply byte_val_inj; rewrite byte_val_of_Z;
    Z.div_mod_to_equations; lia.
Qed.

Lemma encode_decoded_3 (b1 b2 b3 : byte) (tl : list byte) :
  224 <= byte_val b1 < 240 ->
  128 <= byte_val b2 <= 191 ->
  128 <= byte_val b3 <= 191 ->
  (byte_val b1 = 224 -> 160 <= byte_val b2) ->
  (byte_val b1 = 237 -> byte_val b2 < 160) ->
  Spec.is_scalar (Z.shiftl (Z.land (byte_val b1) 15) 12
                  + Z.shiftl (Z.land (byte_val b2) 63) 6
                  + Z.land (byte_val b3) 63) = true /\
  b1 :: b2 :: b3 :: tl
  = Spec.utf8_encode (Z.shiftl (Z.land (byte_val b1) 15) 12
                      + Z.shiftl (Z.land (byte_val b2) 63) 6
                      + Z.land (byte_val b3) 63) ++ tl.
Proof.
  intros H1 H2 H3 H4 H5. bits_to_arith.
  set (cp := _ + _ + _).
  assert (cp = (byte_val b1 - 224) * 4096 + (byte_val b2 - 128) * 64
               + (byte_val b3 - 128)) as Hcp
    by (subst cp; Z.div_mod_to_equations; lia).
  clearbody cp.
  split; [apply is_scalar_true; lia|].
  unfold Spec.utf8_encode.
  destruct (cp <? 128) eqn:E1; [apply Z.ltb_lt in E1; lia|].
  destruct (cp <? 2048) eqn:E2; [apply Z.ltb_lt in E2; lia|].
  destruct (cp <? 65536) eqn:E3; [|apply Z.ltb_ge in E3; lia].
  cbn [app]. repeat f_equal; apply byte_val_inj; rewrite byte_val_of_Z;
    Z.div_mod_to_equations; lia.
Qed.

Lemma encode_decoded_4 (b1 b2 b3 b4 : byte) (tl : list byte) :
  240 <= byte_val b1 < 245 ->
  128 <= byte_val b2 <= 191 ->
  128 <= byte_val b3 <= 191 ->
  128 <= byte_val b4 <= 191 ->
  (byte_val b1 = 240 -> 144 <= byte_val b2) ->
  (byte_val b1 = 244 -> byte_val b2 < 144) ->
  Spec.is_scalar (Z.shiftl (Z.land (byte_val b1) 7) 18
                  + Z.shiftl (Z.land (byte_val b2) 63) 12
                  + Z.shiftl (Z.land (byte_val b3) 63) 6
                  + Z.land (byte_val b4) 63) = true /\
  b1 :: b2 :: b3 :: b4 :: tl
  = Spec.utf8_encode (Z.shiftl (Z.land (byte_val b1) 7) 18
                      + Z.shiftl (Z.land (byte_val b2) 63) 12
                      + Z.shiftl (Z.land (byte_val b3) 63) 6
                      + Z.land (byte_val b4) 63) ++ tl.
Proof.
  intros H1 H2 H3 H4 H5 H6. bits_to_arith.
  set (cp := _ + _ + _ + _).
  assert (cp = (byte_val b1 - 240) * 262144 + (byte_val b2 - 128) * 4096
               + (byte_val b3 - 128) * 64 + (byte_val b4 - 128)) as Hcp
    by (subst cp; Z.div_mod_to_equations; lia).
  clearbody cp.
  split; [apply is_scalar_true; lia|].
  unfold Spec.utf8_encode.
  destruct (cp <? 128) eqn:E1; [apply Z.ltb_lt in E1; lia|].
  destruct (cp <? 2048) eqn:E2; [apply Z.ltb_lt in E2; lia|].
  destruct (cp <? 65536) eqn:E3; [apply Z.ltb_lt in E3; lia|].
  cbn [app]. repeat f_equal; apply byte_val_inj; rewrite byte_val_of_Z;
    Z.div_mod_to_equations; lia.
Qed.

(** What [errors="ignore"] does: bytes that begin the encoding of a
    scalar value are decoded to it, a byte at which no character starts
    is dropped, and the decoding never fails. *)
Lemma utf8_decode_ignore_permissive_aux (n : nat) :
  forall s : list byte,
    (length s <= n)%nat ->
    exists t, utf8_decode Ignore s = Ok t /\ Spec.permissive s t.
Proof.
  induction n as [|n IH]; intros s Hn.
  { destruct s; [|simpl in Hn; lia]. permissive_cut_short utf8_encode_shapes. }
  destruct s as [|b1 s1]; [permissive_cut_short utf8_encode_shapes|].
  pose proof (byte_val_range b1) as R1.
  cbn [utf8_decode invalid].
  destruct (byte_val b1 <? 128) eqn:E1;
    [permissive_kept IH encode_decoded_1 s1|].
  destruct (byte_val b1 <? 194) eqn:E2;
    [permissive_dropped IH utf8_encode_shapes s1|].
  destruct (byte_val b1 <? 224) eqn:E3.
  { destruct s1 as [|b2 s2]; [permissive_cut_short utf8_encode_shapes|].
    pose proof (byte_val_range b2) as R2.
    destruct (negb (is_continuation (byte_val b2))) eqn:C2;
      [permissive_dropped IH utf8_encode_shapes (b2 :: s2)
      | permissive_kept IH encode_decoded_2 s2]. }
  destruct (byte_val b1 <? 240) eqn:E4.
  { destruct s1 as [|b2 s2]; [permissive_cut_short utf8_encode_shapes|].
    pose proof (byte_val_range b2) as R2.
    destruct (negb (is_continuation (byte_val b2))
              || (if byte_val b2 <? 160 then byte_val b1 =? 224
                  else byte_val b1 =? 237)) eqn:C2;
      [permissive_dropped IH utf8_encode_shapes (b2 :: s2)|].
    destruct s2 as [|b3 s3]; [permissive_cut_short utf8_encode_shapes|].
    pose proof (byte_val_range b3) as R3.
    destruct (negb (is_continuation (byte_val b3))) eqn:C3;
      [permissive_dropped IH utf8_encode_shapes (b3 :: s3)
      | permissive_kept IH encode_decoded_3 s3]. }
  destruct (byte_val b1 <? 245) eqn:E5;
    [|permissive_dropped IH utf8_encode_shapes s1].
  destruct s1 as [|b2 s2]; [permissive_cut_short utf8_encode_shapes|].
  pose proof (byte_val_range b2) as R2.
  destruct (negb (is_continuation (byte_val b2))
            || (if byte_val b2 <? 144 then byte_val b1 =? 240
                else byte_val b1 =? 244)) eqn:C2;
    [permissive_dropped IH utf8_encode_shapes (b2 :: s2)|].
  destruct s2 as [|b3 s3]; [permissive_cut_short utf8_encode_shapes|].
  pose proof (byte_val_range b3) as R3.
  destruct (negb (is_continuation (byte_val b3))) eqn:C3;
    [permissive_dropped IH utf8_encode_shapes (b3 :: s3)|].
  destruct s3 as [|b4 s4]; [permissive_cut_short utf8_encode_shapes|].
  pose proof (byte_val_range b4) as R4.
  destruct (negb (is_continuation (byte_val b4))) eqn:C4;
    [permissive_dropped IH utf8_encode_shapes (b4 :: s4)
    | permissive_kept IH encode_decoded_4 s4].
Qed.

Lemma utf8_decode_ignore_permissive (s : list byte) :
  exists t, utf8_decode Ignore s = Ok t /\ Spec.permissive s t.
Proof. apply (utf8_decode_ignore_permissive_aux (length s)). lia. Qed.

Lemma utf8_encode_app_inj (cp cp' : Z) (rest rest' : list byte) :
  Spec.is_scalar cp = true ->
  Spec.is_scalar cp' = true ->
  Spec.utf8_encode cp ++ rest = Spec.utf8_encode cp' ++ rest' ->
  cp = cp' /\ rest = rest'.
Proof.
  intros Hs Hs' H.
  destruct (utf8_encode_shapes cp Hs)
    as [(? & He & ?)|[(? & ? & He & ?)|[(? & ? & ? & He & ?)
                                       |(? & ? & ? & ? & He & ?)]]];
    destruct (utf8_encode_shapes cp' Hs')
      as [(? & He' & ?)|[(? & ? & He' & ?)|[(? & ? & ? & He' & ?)
                                           |(? & ? & ? & ? & He' & ?)]]];
    rewrite He, He' in H; cbn [app] in H; inversion H; subst;
    split; first [reflexivity | lia].
Qed.

(** The permissive reading of a byte string is unique: the relation
    leaves no choice of what to keep and what to drop. *)
Lemma permissive_functional (raw : list byte) (t1 t2 : list Z) :
  Spec.permissive raw t1 -> Spec.permissive raw t2 -> t1 = t2.
Proof.
  intros H1. revert t2.
  induction H1 as [|cp rest text Hs Hp IH|b rest text Hn Hp IH];
    intros t2 H2.
  - inversion H2 as [|cp' rest' text' Hs' Hp' Heq|]; [reflexivity|].
    destruct (utf8_encode_shapes cp' Hs')
      as [(? & He & ?)|[(? & ? & He & ?)|[(? & ? & ? & He & ?)
                                         |(? & ? & ? & ? & He & ?)]]];
      rewrite He in Heq; discriminate Heq.
  - inversion H2 as [Heq|cp' rest' text' Hs' Hp' Heq|b' rest' text' Hn' Hp' Heq].
    + destruct (utf8_encode_shapes cp Hs)
        as [(? & He & ?)|[(? & ? & He & ?)|[(? & ? & ? & He & ?)
                                           |(? & ? & ? & ? & He & ?)]]];
        rewrite He in Heq; discriminate Heq.
    + destruct (utf8_encode_app_inj cp' cp rest' rest Hs' Hs Heq) as [-> ->].
      f_equal. apply IH, Hp'.
    + exfalso. apply (Hn' cp Hs). rewrite Heq. exists rest. reflexivity.
  - inversion H2 as [|cp' rest' text' Hs' Hp' Heq|b' rest' text' Hn' Hp' Heq].
    + exfalso. apply (Hn cp' Hs'). rewrite <- Heq. exists rest'. reflexivity.
    + subst. apply IH, Hp'.
Qed.

(** Valid text is kept whole: the permissive reading of the encoding of
    scalar values is these values, none dropped. *)
Lemma permissive_of_encoded (cps : list Z) (text : list Z) :
  forallb Spec.is_scalar cps = true ->
  Spec.permissive (concat (map Spec.utf8_encode cps)) text ->
  text = cps.
Proof.
  intros Hs Hp. apply (permissive_functional _ _ _ Hp). clear Hp.
  induction cps as [|cp cps IH]; [constructor|].
  cbn [forallb] in Hs. apply andb_true_iff in Hs as [Hc Hs].
  cbn [map concat]. apply Spec.permissive_keep; [exact Hc | apply IH, Hs].
Qed.

Lemma lstrip_spec (chars s : list Z) :
  exists l,
    s = l ++ lstrip chars s /\
    Forall (fun c => c ∈ chars) l /\
    (forall c, head (lstrip chars s) = Some c -> c ∉ chars).
Proof.
  induction s as [|c s (l & Hs & Hl & Hh)].
  - exists []. repeat split; [constructor | discriminate].
  - cbn [lstrip]. destruct (bool_decide (c ∈ chars)) eqn:Hc.
    + apply bool_decide_eq_true in Hc.
      exists (c :: l). cbn [app]. rewrite <- Hs.
      repeat split; [constructor; assumption | exact Hh].
    + apply bool_decide_eq_false in Hc.
      exists []. repeat split; [constructor|].
      intros c' [= <-]. exact Hc.
Qed.

Lemma rstrip_spec (chars s : list Z) :
  exists r,
    s = rstrip chars s ++ r /\
    Forall (fun c => c ∈ chars) r /\
    (forall c, last (rstrip chars s) = Some c -> c ∉ chars).
Proof.
  unfold rstrip.
  destruct (lstrip_spec chars (reverse s)) as (l & Hs & Hl & Hh).
  exists (reverse l). repeat split.
  - rewrite <- reverse_app, <- Hs, reverse_involutive. reflexivity.
  - apply Forall_reverse, Hl.
  - intros c. rewrite last_reverse. apply Hh.
Qed.

Lemma strip_trimmed (chars s : list Z) :
  Spec.trimmed chars s (strip chars s).
Proof.
  unfold strip.
  destruct (lstrip_spec chars s) as (l & Hs & Hl & Hh).
  destruct (rstrip_spec chars (lstrip chars s)) as (r & Hs' & Hr & Hla).
  exists l, r. repeat split; try assumption.
  - rewrite <- Hs'. exact Hs.
  - intros c Hc. apply Hh. rewrite Hs'.
    destruct (rstrip chars (lstrip chars s)); [discriminate | exact Hc].
Qed.

(** ** Claims about the data-source handler *)

Lemma decoded_field (attrs : gmap Z (list byte)) (kind : Z) :
  exists text,
    utf8_decode Ignore (dict_get attrs kind []) = Ok text /\
    Spec.field Spec.trim_chars (attrs !! kind) (strip STRIP_CHARS text).
Proof.
  unfold dict_get, Spec.field.
  destruct (attrs !! kind) as [bs|].
  - destruct (utf8_decode_ignore_permissive bs) as (text & Hign & Hperm).
    exists text. split; [exact Hign|].
    exists text. split; [exact Hperm | apply strip_trimmed].
  - exists []. split; reflexivity.
Qed.

Lemma summarize_ok (attrs : gmap Z (list byte)) :
  exists s,
    summarize attrs = Ok s /\
    Spec.field Spec.trim_chars (attrs !! NA_APP_IDENTIFIER) (app_id s) /\
    Spec.field Spec.trim_chars (attrs !! NA_TITLE) (title s) /\
    Spec.field Spec.trim_chars (attrs !! NA_MESSAGE) (message s).
Proof.
  destruct (decoded_field attrs NA_TITLE) as (t & Ht & Hft).
  destruct (decoded_field attrs NA_MESSAGE) as (m & Hm & Hfm).
  destruct (decoded_field attrs NA_APP_IDENTIFIER) as (a & Ha & Hfa).
  unfold summarize. rewrite Ht, Hm, Ha.
  eexists. split; [reflexivity|]. cbn [app_id title message].
  repeat split; assumption.
Qed.

Lemma on_data_source_ok (data : list byte) (self : ANCSMirror) :
  exists self', _on_data_source data self = Ok self'.
Proof.
  unfold _on_data_source.
  destruct (len data <? 4); [eauto|].
  destruct (tlv_loop_ok (slice_from data 4) 0 ∅ ltac:(lia)) as [attrs Hp].
  unfold _parse_tlv_attributes. rewrite Hp.
  destruct (summarize_ok attrs) as (s & Hs & _).
  cbn [mbind result_bind Py.bind]. rewrite Hs. eauto.
Qed.

(** What the handler does with a packet of four bytes or more. *)
Lemma on_data_source_eq (u0 u1 u2 u3 : byte) (payload : list byte)
      (self : ANCSMirror) :
  exists attrs s,
    _parse_tlv_attributes payload = Ok attrs /\
    summarize attrs = Ok s /\
    _on_data_source (u0 :: u1 :: u2 :: u3 :: payload) self
    = Ok (mkANCSMirror
            (client self)
            (delete (Spec.u32_le u0 u1 u2 u3) (pending self))
            (stdout self ++ DsNotificationAttributes
                         :: summary_lines s payload)
            (tasks self) (written self)).
Proof.
  destruct (tlv_loop_ok payload 0 ∅ ltac:(lia)) as [attrs Hp].
  fold (_parse_tlv_attributes payload) in Hp.
  destruct (summarize_ok attrs) as (s & Hs & _).
  exists attrs, s. split; [exact Hp|]. split; [exact Hs|].
  unfold _on_data_source.
  destruct (_ <? 4) eqn:Hl;
    [apply Z.ltb_lt in Hl; unfold len in Hl; simpl in Hl; lia|].
  rewrite (slice_app _ [] [u0; u1; u2; u3] payload 0 4) by reflexivity.
  assert (slice_from (u0 :: u1 :: u2 :: u3 :: payload) 4 = payload) as ->.
  { unfold slice_from, clamp. rewrite !len_cons.
    pose proof (len_nonneg payload).
    destruct (4 <? 0) eqn:E; [discriminate|].
    rewrite Z.min_l by lia. reflexivity. }
  rewrite Hp. cbn [mbind result_bind Py.bind]. rewrite Hs.
  cbn [mbind result_bind Py.bind]. cbv zeta.
  replace (int_from_bytes_little [u0; u1; u2; u3])
    with (Spec.u32_le u0 u1 u2 u3)
    by (unfold Spec.u32_le; cbn [int_from_bytes_little]; lia).
  unfold summary_lines, print_if, dict_pop.
  destruct (truthy (app_id s)), (truthy (title s)), (truthy (message s));
    unfold set_pending, print;
    cbn [negb orb app client pending stdout tasks written snd];
    rewrite <- ?app_assoc; reflexivity.
Qed.

(** C7, the claim as it is stated, fails for the trimming: a title that
    starts with a tab, a whitespace control character, keeps it. The
    response [uid 7, Title = 09 "Hi"] prints the title with the tab. *)
Lemma title_keeps_leading_tab :
  (exists s,
     summarize {[ NA_TITLE := [x09; x48; x69] ]} = Ok s /\
     head (title s) = Some 9 /\
     9 ∈ Spec.nul_or_whitespace_control)
  /\
  (exists self',
     _on_data_source [x07; x00; x00; x00; x01; x03; x00; x09; x48; x69]
                     (mkANCSMirror true ∅ [] [] []) = Ok self' /\
     stdout self' = [DsNotificationAttributes; DsTitle [9; 72; 105]]).
Proof.
  split.
  - eexists. split; [reflexivity|]. split; [reflexivity|].
    unfold Spec.nul_or_whitespace_control. set_solver.
  - eexists. split; reflexivity.
Qed.

Lemma lstrip_all (chars s : list Z) :
  Forall (fun c => c ∈ chars) s -> lstrip chars s = [].
Proof.
  induction 1 as [|c s Hc _ IH]; [reflexivity|].
  cbn [lstrip]. rewrite bool_decide_eq_true_2 by exact Hc. exact IH.
Qed.

Lemma lstrip_unique (chars l m : list Z) :
  Forall (fun c => c ∈ chars) l ->
  (forall c, head m = Some c -> c ∉ chars) ->
  lstrip chars (l ++ m) = m.
Proof.
  intros Hl Hm. induction Hl as [|c l Hc _ IH].
  - destruct m as [|c m]; [reflexivity|].
    cbn [app lstrip]. rewrite bool_decide_eq_false_2; [reflexivity|].
    apply Hm. reflexivity.
  - cbn [app lstrip]. rewrite bool_decide_eq_true_2 by exact Hc. exact IH.
Qed.

(** Trimming leaves no choice either: what is trimmed is [strip]. *)
Lemma trimmed_strip (chars text value : list Z) :
  Spec.trimmed chars text value -> value = strip chars text.
Proof.
  intros (l & r & -> & Hl & Hr & Hh & Hla). unfold strip, rstrip.
  destruct value as [|c value].
  - cbn [app]. rewrite (lstrip_all chars (l ++ r)); [reflexivity|].
    apply Forall_app. split; assumption.
  - rewrite lstrip_unique; [|exact Hl|].
    2:{ intros c' [= <-]. apply Hh. reflexivity. }
    rewrite reverse_app, lstrip_unique.
    + rewrite reverse_involutive. reflexivity.
    + apply Forall_reverse, Hr.
    + intros c'. rewrite head_reverse. apply Hla.
Qed.

Lemma field_unique (chars : list Z) (raw : option (list byte))
      (v1 v2 : list Z) :
  Spec.field chars raw v1 -> Spec.field chars raw v2 -> v1 = v2.
Proof.
  destruct raw as [bs|]; cbn [Spec.field].
  - intros (t1 & Hp1 & Ht1) (t2 & Hp2 & Ht2).
    rewrite (permissive_functional _ _ _ Hp1 Hp2) in Ht1.
    rewrite (trimmed_strip _ _ _ Ht1), (trimmed_strip _ _ _ Ht2).
    reflexivity.
  - intros -> ->. reflexivity.
Qed.

(** C7, amended. The application id, title and message of a response are
    decoded permissively (a byte at which no character starts is dropped,
    valid text is kept whole, the decoding never fails) and trimmed of
    surrounding NUL, line feed, carriage return and space characters, and
    of no others, so that a tab stays; an attribute kind missing from the
    response gives an empty field. This fixes each field: no other value
    is a permissive, trimmed reading of the attribute. The handler never
    raises, whatever the packet, and for a packet of 4 bytes or more what
    it prints after the heading is this summary of the parsed
    attributes. *)
Theorem summary_fields_decoded_and_trimmed (attrs : gmap Z (list byte)) :
  (exists s,
     summarize attrs = Ok s /\
     Spec.field Spec.trim_chars (attrs !! NA_APP_IDENTIFIER) (app_id s) /\
     Spec.field Spec.trim_chars (attrs !! NA_TITLE) (title s) /\
     Spec.field Spec.trim_chars (attrs !! NA_MESSAGE) (message s))
  /\
  (forall (data : list byte) (self : ANCSMirror),
     exists self', _on_data_source data self = Ok self')
  /\
  (forall (raw : option (list byte)) (v1 v2 : list Z),
     Spec.field Spec.trim_chars raw v1 ->
     Spec.field Spec.trim_chars raw v2 ->
     v1 = v2)
  /\
  (forall (u0 u1 u2 u3 : byte) (payload : list byte) (self : ANCSMirror),
     exists parsed s self',
       _parse_tlv_attributes payload = Ok parsed /\
       summarize parsed = Ok s /\
       _on_data_source (u0 :: u1 :: u2 :: u3 :: payload) self = Ok self' /\
       stdout self' =
       stdout self ++ DsNotificationAttributes :: summary_lines s payload).
Proof.
  split; [apply summarize_ok|].
  split; [apply on_data_source_ok|].
  split; [intros raw v1 v2; apply field_unique|].
  intros u0 u1 u2 u3 payload self.
  destruct (on_data_source_eq u0 u1 u2 u3 payload self)
    as (parsed & s & Hp & Hs & ->).
  exists parsed, s. eexists.
  split; [exact Hp|]. split; [exact Hs|]. split; reflexivity.
Qed.

Lemma summary_fields_decoded_and_trimmed_witness :
  exists s,
    summarize {[ NA_TITLE := [x09; x48; xff; x69; x20] ]} = Ok s /\
    title s = [9; 72; 105] /\
    forall v,
      Spec.field Spec.trim_chars (Some [x09; x48; xff; x69; x20]) v ->
      v = [9; 72; 105].
Proof.
  destruct (summary_fields_decoded_and_trimmed
              {[ NA_TITLE := [x09; x48; xff; x69; x20] ]})
    as [(s & Hs & _ & Ht & _) (_ & Huniq & _)].
  exists s. split; [exact Hs|].
  assert (title s = [9; 72; 105]) as Htitle
    by (vm_compute in Hs; injection Hs as <-; reflexivity).
  split; [exact Htitle|].
  intros v Hv. rewrite <- Htitle.
  apply (Huniq (Some [x09; x48; xff; x69; x20]) v (title s) Hv).
  exact Ht.
Defined.

(** ** More about the TLV parser *)

Lemma mapping_fold_elem (rs : list Spec.record) (m : gmap Z (list byte))
      (k : Z) (v : list byte) :
  fold_left (fun m r => <[byte_val r.1 := r.2]> m) rs m !! k = Some v ->
  (exists kb, byte_val kb = k /\ (kb, v) ∈ rs) \/ m !! k = Some v.
Proof.
  revert m. induction rs as [|[kb' v'] rs IH]; intros m H; [right; exact H|].
  cbn [fold_left fst snd] in H.
  destruct (IH _ H) as [(kb & Hk & Hin)|Hm].
  - left. exists kb. split; [exact Hk | right; exact Hin].
  - destruct (decide (byte_val kb' = k)) as [Heq|Hne].
    + rewrite Heq, lookup_insert_eq in Hm. injection Hm as ->.
      left. exists kb'. split; [exact Heq | left].
    + rewrite lookup_insert_ne in Hm by exact Hne. right. exact Hm.
Qed.

Lemma records_bytes_app (r1 r2 : list Spec.record) :
  Spec.records_bytes (r1 ++ r2)
  = Spec.records_bytes r1 ++ Spec.records_bytes r2.
Proof. unfold Spec.records_bytes. rewrite map_app, concat_app. reflexivity. Qed.

Lemma records_bytes_length (rs : list Spec.record) :
  3 * Z.of_nat (length rs) <= len (Spec.records_bytes rs).
Proof.
  induction rs as [|[k v] rs IH]; [unfold len; simpl; lia|].
  change (Spec.records_bytes ((k, v) :: rs))
    with (Spec.record_bytes (k, v) ++ Spec.records_bytes rs).
  rewrite len_app. unfold Spec.record_bytes. cbn [fst snd le_bytes app].
  rewrite !len_cons. pose proof (len_nonneg v).
  cbn [length]. lia.
Qed.

Lemma mapping_fold_size (rs : list Spec.record) (m : gmap Z (list byte)) :
  (size (fold_left (fun m r => <[byte_val r.1 := r.2]> m) rs m)
   <= size m + length rs)%nat.
Proof.
  revert m. induction rs as [|[k v] rs IH]; intros m; [simpl; lia|].
  cbn [fold_left fst snd length]. etrans; [apply IH|].
  rewrite map_size_insert. destruct (m !! byte_val k); unfold id; lia.
Qed.

(** X1. The parser invents nothing: every entry of the result is a record of
    the buffer, the kind byte and the two length bytes followed by the
    value. So the keys are byte values, and a value is a run of bytes of
    the buffer, shorter than 65536. *)
Theorem parse_tlv_entries_in_buffer (data : list byte)
        (out : gmap Z (list byte)) (k : Z) (v : list byte) :
  _parse_tlv_attributes data = Ok out ->
  out !! k = Some v ->
  exists (kb : byte) (before after : list byte),
    byte_val kb = k /\
    len v < 65536 /\
    data = before ++ kb :: le_bytes 2 (len v) ++ v ++ after.
Proof.
  intros Hp Hk.
  destruct (tlv_split data) as (rs & tail & -> & Hfit & Hstop).
  rewrite parse_tlv_records in Hp by assumption. injection Hp as <-.
  destruct (mapping_fold_elem rs ∅ k v Hk) as [(kb & Hkb & Hin)|He];
    [|rewrite lookup_empty in He; discriminate].
  apply list_elem_of_split in Hin as (r1 & r2 & ->).
  rewrite forallb_app in Hfit. apply andb_true_iff in Hfit as [_ Hfit].
  cbn [forallb] in Hfit. apply andb_true_iff in Hfit as [Hv _].
  unfold Spec.fits in Hv. cbn [snd] in Hv. apply Z.ltb_lt in Hv.
  exists kb, (Spec.records_bytes r1), (Spec.records_bytes r2 ++ tail).
  split; [exact Hkb|]. split; [exact Hv|].
  rewrite records_bytes_app.
  change (Spec.records_bytes ((kb, v) :: r2))
    with (Spec.record_bytes (kb, v) ++ Spec.records_bytes r2).
  unfold Spec.record_bytes. cbn [fst snd].
  rewrite <- !app_assoc. cbn [app]. rewrite <- !app_assoc. reflexivity.
Qed.

Lemma parse_tlv_entries_in_buffer_witness :
  exists (kb : byte) (before after : list byte),
    byte_val kb = 3 /\
    len [x48; x69] < 65536 /\
    [x01; x01; x00; x41; x03; x02; x00; x48; x69; x07]
    = before ++ kb :: le_bytes 2 (len [x48; x69]) ++ [x48; x69] ++ after.
Proof.
  apply (parse_tlv_entries_in_buffer
           [x01; x01; x00; x41; x03; x02; x00; x48; x69; x07]
           {[ 1 := [x41]; 3 := [x48; x69] ]} 3 [x48; x69]);
    reflexivity.
Defined.

(** X2. Each entry of the result costs at least its three header bytes: the
    result has at most [len(data) / 3] entries, and a buffer shorter than
    3 bytes, the empty one included, gives the empty mapping. *)
Theorem parse_tlv_size_bound (data : list byte) (out : gmap Z (list byte)) :
  _parse_tlv_attributes data = Ok out ->
  3 * Z.of_nat (size out) <= len data /\ (len data < 3 -> out = ∅).
Proof.
  intros Hp.
  assert (3 * Z.of_nat (size out) <= len data) as Hb.
  { destruct (tlv_split data) as (rs & tail & -> & Hfit & Hstop).
    rewrite parse_tlv_records in Hp by assumption. injection Hp as <-.
    pose proof (mapping_fold_size rs ∅) as Hs. rewrite map_size_empty in Hs.
    pose proof (records_bytes_length rs). rewrite len_app.
    pose proof (len_nonneg tail). unfold Spec.mapping. lia. }
  split; [exact Hb|].
  intros Hl. apply map_size_empty_inv. lia.
Qed.

Lemma parse_tlv_size_bound_witness :
  3 * Z.of_nat (size ({[ 1 := [x41] ]} : gmap Z (list byte)))
  <= len [x01; x01; x00; x41; x03; x02; x00; x48]
  /\ (∅ : gmap Z (list byte)) = ∅.
Proof.
  split.
  - apply (parse_tlv_size_bound [x01; x01; x00; x41; x03; x02; x00; x48]
                                {[ 1 := [x41] ]}).
    reflexivity.
  - apply (parse_tlv_size_bound [x01; x05] ∅); [reflexivity|].
    unfold len; simpl; lia.
Defined.

Lemma mapping_of_entries (l : list (Z * list byte)) (acc : gmap Z (list byte))
      (k : Z) :
  NoDup (l.*1) ->
  Forall (fun kv => 0 <= kv.1 < 256) l ->
  fold_left (fun m r => <[byte_val r.1 := r.2]> m)
            (map (fun kv => (byte_of_Z kv.1, kv.2)) l) acc !! k
  = match (list_to_map l : gmap Z (list byte)) !! k with
    | Some v => Some v
    | None => acc !! k
    end.
Proof.
  revert acc. induction l as [|[k0 v0] l IH]; intros acc Hnd Hr.
  - cbn. rewrite lookup_empty. reflexivity.
  - cbn [fmap list_fmap fst] in Hnd. apply NoDup_cons in Hnd as [Hk0 Hnd].
    apply Forall_cons in Hr as [Hr0 Hr]. cbn [fst] in Hr0.
    cbn [map fold_left fst snd list_to_map foldr].
    rewrite IH by assumption.
    rewrite byte_val_of_Z, Z.mod_small by lia.
    destruct (decide (k0 = k)) as [->|Hne].
    + rewrite !lookup_insert_eq.
      rewrite (not_elem_of_list_to_map_1 _ _ Hk0). reflexivity.
    + rewrite !lookup_insert_ne by exact Hne. reflexivity.
Qed.

(** X3. Round trip: a mapping from byte kinds to values shorter than 65536,
    written out record by record, parses back to itself. *)
Theorem parse_tlv_of_written_mapping (m : gmap Z (list byte)) :
  forallb (fun kv => (0 <=? kv.1) && (kv.1 <? 256) && (len kv.2 <? 65536))
          (map_to_list m) = true ->
  _parse_tlv_attributes
    (Spec.records_bytes
       (map (fun kv => (byte_of_Z kv.1, kv.2)) (map_to_list m)))
  = Ok m.
Proof.
  intros Hm.
  assert (forall kv, In kv (map_to_list m) ->
                     0 <= kv.1 < 256 /\ len kv.2 < 65536) as Hall.
  { intros kv Hin. apply (proj1 (forallb_forall _ _) Hm) in Hin.
    apply andb_true_iff in Hin as [Hin Hv].
    apply andb_true_iff in Hin as [H0 H1].
    apply Z.leb_le in H0. apply Z.ltb_lt in H1, Hv. lia. }
  rewrite <- (app_nil_r (Spec.records_bytes _)).
  rewrite parse_tlv_records; [| | reflexivity].
  - f_equal. apply map_eq. intros k. unfold Spec.mapping.
    rewrite mapping_of_entries.
    + rewrite list_to_map_to_list, lookup_empty. destruct (m !! k); reflexivity.
    + apply NoDup_fst_map_to_list.
    + apply Forall_forall. intros kv Hin.
      apply list_elem_of_In in Hin. apply (Hall _ Hin).
  - apply forallb_forall. intros r Hin.
    apply in_map_iff in Hin as (kv & <- & Hin).
    unfold Spec.fits. cbn [snd]. apply Z.ltb_lt. apply (Hall _ Hin).
Qed.

Lemma parse_tlv_of_written_mapping_witness :
  _parse_tlv_attributes
    (Spec.records_bytes
       (map (fun kv => (byte_of_Z kv.1, kv.2))
            (map_to_list ({[ 0 := [x63; x6f; x6d]; 1 := [x48; x69]; 3 := [] ]}
                            : gmap Z (list byte)))))
  = Ok {[ 0 := [x63; x6f; x6d]; 1 := [x48; x69]; 3 := [] ]}.
Proof.
  apply (parse_tlv_of_written_mapping
           {[ 0 := [x63; x6f; x6d]; 1 := [x48; x69]; 3 := [] ]}).
  vm_compute. reflexivity.
Defined.

(** ** More about the notification-source handler *)

Lemma u32_le_range (u0 u1 u2 u3 : byte) : is_u32 (Spec.u32_le u0 u1 u2 u3).
Proof.
  unfold is_u32, Spec.u32_le.
  pose proof (byte_val_range u0). pose proof (byte_val_range u1).
  pose proof (byte_val_range u2). pose proof (byte_val_range u3). lia.
Qed.

(** [to_bytes] undoes [from_bytes]: the four bytes of a uid come back. *)
Lemma le_bytes_u32_le (u0 u1 u2 u3 : byte) :
  le_bytes 4 (Spec.u32_le u0 u1 u2 u3) = [u0; u1; u2; u3].
Proof.
  pose proof (byte_val_range u0). pose proof (byte_val_range u1).
  pose proof (byte_val_range u2). pose proof (byte_val_range u3).
  cbn [le_bytes]. unfold Spec.u32_le.
  repeat f_equal; apply byte_val_inj; rewrite byte_val_of_Z;
    Z.div_mod_to_equations; lia.
Qed.

(** X4. An Added event schedules one attribute request for the uid of the
    packet and does nothing else but print; the uid fits four bytes, so
    the scheduled request can build its command, and the command carries
    the four uid bytes of the packet as they came. *)
Theorem added_event_schedules_request (f c n u0 u1 u2 u3 : byte)
        (rest : list byte) (self : ANCSMirror) :
  exists self',
    _on_notification_source
      (x00 :: f :: c :: n :: u0 :: u1 :: u2 :: u3 :: rest) self = Ok self' /\
    tasks self' = tasks self ++ [Spec.u32_le u0 u1 u2 u3] /\
    pending self' = pending self /\
    written self' = written self /\
    build_command (Spec.u32_le u0 u1 u2 u3)
    = Ok [x00; u0; u1; u2; u3; x00; x01; x40; x00; x03; x00; x01].
Proof.
  rewrite on_notification_source_eq. cbv zeta.
  eexists. split; [reflexivity|]. cbn.
  repeat split.
  rewrite build_command_eq by apply u32_le_range.
  unfold Spec.command_bytes. rewrite le_bytes_u32_le. reflexivity.
Qed.

(** X5. Any event kind other than Added (0) and Removed (2), Modified and the
    unknown ones alike, is printed and has no other effect. *)
Theorem other_events_only_print (k f c n u0 u1 u2 u3 : byte)
        (rest : list byte) (self : ANCSMirror) :
  byte_val k <> 0 ->
  byte_val k <> 2 ->
  _on_notification_source
    (k :: f :: c :: n :: u0 :: u1 :: u2 :: u3 :: rest) self
  = Ok (print (NsEvent (Spec.event_name (byte_val k))
                       (Spec.u32_le u0 u1 u2 u3)
                       (Spec.category_name (byte_val c)) (byte_val n)
                       (byte_val f)) self).
Proof.
  intros H0 H2. rewrite on_notification_source_eq. cbv zeta.
  destruct (byte_val k =? 0) eqn:E0; [apply Z.eqb_eq in E0; contradiction|].
  destruct (byte_val k =? 2) eqn:E2; [apply Z.eqb_eq in E2; contradiction|].
  reflexivity.
Qed.

Lemma other_events_only_print_witness :
  _on_notification_source
    [x07; x00; x04; x01; x2a; x00; x00; x00]
    (mkANCSMirror true {[ 42 := mkPendingRequest 42 "notification_attributes" ]}
                  [] [] [])
  = Ok (print (NsEvent (Spec.event_name (byte_val x07))
                       (Spec.u32_le x2a x00 x00 x00)
                       (Spec.category_name (byte_val x04)) (byte_val x01)
                       (byte_val x00))
              (mkANCSMirror true
                 {[ 42 := mkPendingRequest 42 "notification_attributes" ]}
                 [] [] [])).
Proof.
  apply (other_events_only_print x07 x00 x04 x01 x2a x00 x00 x00 []);
    vm_compute; discriminate.
Defined.

Lemma on_notification_source_short (data : list byte) (self : ANCSMirror) :
  len data < 8 ->
  _on_notification_source data self = Ok (print (NsShortPacket data) self).
Proof.
  intros H. unfold _on_notification_source.
  destruct (_ <? _) eqn:Hl; [reflexivity | apply Z.ltb_ge in Hl; lia].
Qed.

(** What the bookkeeping needs to know of the handler. *)
Lemma on_notification_source_keeps (data : list byte) (self : ANCSMirror) :
  exists self',
    _on_notification_source data self = Ok self' /\
    written self' = written self /\
    pending self' ⊆ pending self /\
    (tasks self' = tasks self
     \/ exists uid, is_u32 uid /\ tasks self' = tasks self ++ [uid]).
Proof.
  destruct (Z.lt_ge_cases (len data) 8) as [Hs|Hl].
  - rewrite on_notification_source_short by exact Hs.
    eexists. split; [reflexivity|]. cbn.
    split; [reflexivity|]. split; [reflexivity | left; reflexivity].
  - destruct (len_ge_8 data ltac:(lia))
      as (k & f & c & n & u0 & u1 & u2 & u3 & rest & ->).
    rewrite on_notification_source_eq. cbv zeta.
    eexists. split; [reflexivity|].
    destruct (byte_val k =? 0); [|destruct (byte_val k =? 2)]; cbn;
      (split; [reflexivity|]).
    + split; [reflexivity|]. right. eexists. split; [apply u32_le_range|].
      reflexivity.
    + split; [apply delete_subseteq | left; reflexivity].
    + split; [reflexivity | left; reflexivity].
Qed.

(** X6. Whatever the packet, the notification-source handler prints exactly
    one line, never writes to the control point, never adds a pending
    entry (it can only remove one) and schedules at most one request,
    whose uid fits four bytes. *)
Theorem notification_source_frame (data : list byte) (self : ANCSMirror) :
  exists self',
    _on_notification_source data self = Ok self' /\
    length (stdout self') = S (length (stdout self)) /\
    written self' = written self /\
    client self' = client self /\
    pending self' ⊆ pending self /\
    (tasks self' = tasks self
     \/ exists uid, is_u32 uid /\ tasks self' = tasks self ++ [uid]).
Proof.
  destruct (Z.lt_ge_cases (len data) 8) as [Hs|Hl].
  - rewrite on_notification_source_short by exact Hs.
    eexists. split; [reflexivity|]. cbn. rewrite length_app. cbn.
    repeat split; [lia | reflexivity | left; reflexivity].
  - destruct (len_ge_8 data ltac:(lia))
      as (k & f & c & n & u0 & u1 & u2 & u3 & rest & ->).
    rewrite on_notification_source_eq. cbv zeta.
    eexists. split; [reflexivity|].
    destruct (byte_val k =? 0); [|destruct (byte_val k =? 2)]; cbn;
      rewrite length_app; cbn;
      (split; [lia|]); (split; [reflexivity|]); (split; [reflexivity|]).
    + split; [reflexivity|]. right. eexists. split; [apply u32_le_range|].
      reflexivity.
    + split; [apply delete_subseteq | left; reflexivity].
    + split; [reflexivity | left; reflexivity].
Qed.

(** ** More about the data-source handler *)

(** X7. A response, even for a uid that has no pending entry, removes that
    uid from the pending table and no other; it schedules nothing and
    writes nothing. *)
Theorem data_source_clears_pending (u0 u1 u2 u3 : byte)
        (payload : list byte) (self : ANCSMirror) :
  exists self',
    _on_data_source (u0 :: u1 :: u2 :: u3 :: payload) self = Ok self' /\
    pending self' = delete (Spec.u32_le u0 u1 u2 u3) (pending self) /\
    pending self' !! Spec.u32_le u0 u1 u2 u3 = None /\
    (forall other, other <> Spec.u32_le u0 u1 u2 u3 ->
                   pending self' !! other = pending self !! other) /\
    tasks self' = tasks self /\
    written self' = written self /\
    client self' = client self.
Proof.
  destruct (on_data_source_eq u0 u1 u2 u3 payload self)
    as (attrs & s & _ & _ & ->).
  eexists. split; [reflexivity|]. cbn.
  split; [reflexivity|]. split; [apply lookup_delete_eq|].
  split; [|repeat split].
  intros other Hne. apply lookup_delete_ne. congruence.
Qed.

Lemma data_source_clears_pending_witness :
  exists self',
    _on_data_source
      [x2a; x00; x00; x00; x01; x02; x00; x48; x69]
      (mkANCSMirror true
         {[ 42 := mkPendingRequest 42 "notification_attributes";
            7 := mkPendingRequest 7 "notification_attributes" ]} [] [] [])
    = Ok self' /\
    pending self' !! 7 = Some (mkPendingRequest 7 "notification_attributes").
Proof.
  destruct (data_source_clears_pending
              x2a x00 x00 x00 [x01; x02; x00; x48; x69]
              (mkANCSMirror true
                 {[ 42 := mkPendingRequest 42 "notification_attributes";
                    7 := mkPendingRequest 7 "notification_attributes" ]}
                 [] [] []))
    as (self' & Hr & _ & _ & Hother & _).
  exists self'. split; [exact Hr|].
  rewrite (Hother 7) by (vm_compute; discriminate). reflexivity.
Defined.

(** X8. What a response prints: the heading line, then one line for each of
    application id, title and message that is not empty, in this order,
    with the message cut to its preview; when all three are empty, the
    raw payload instead. So the heading never stands alone and an empty
    field is never printed. *)
Theorem data_source_prints_summary (u0 u1 u2 u3 : byte)
        (payload : list byte) (self : ANCSMirror) :
  exists attrs s self',
    _parse_tlv_attributes payload = Ok attrs /\
    summarize attrs = Ok s /\
    _on_data_source (u0 :: u1 :: u2 :: u3 :: payload) self = Ok self' /\
    stdout self' =
    stdout self ++ DsNotificationAttributes :: summary_lines s payload /\
    (1 <= length (summary_lines s payload) <= 3)%nat /\
    (DsApp [] ∉ summary_lines s payload) /\
    (DsTitle [] ∉ summary_lines s payload).
Proof.
  destruct (on_data_source_eq u0 u1 u2 u3 payload self)
    as (attrs & s & Hp & Hs & ->).
  exists attrs, s. eexists.
  split; [exact Hp|]. split; [exact Hs|]. split; [reflexivity|].
  split; [reflexivity|].
  unfold summary_lines.
  destruct (app_id s) as [|a0 a], (title s) as [|t0 t],
           (message s) as [|m0 m]; cbn;
    (split; [lia|]); split; intros Hin;
    repeat (apply elem_of_cons in Hin as [Hin|Hin]; [discriminate|]);
    apply elem_of_nil in Hin; exact Hin.
Qed.

(** What the bookkeeping needs to know of the handler. *)
Lemma on_data_source_keeps (data : list byte) (self : ANCSMirror) :
  exists self',
    _on_data_source data self = Ok self' /\
    tasks self' = tasks self /\
    written self' = written self /\
    pending self' ⊆ pending self.
Proof.
  destruct (Z.lt_ge_cases (len data) 4) as [Hs|Hl].
  - unfold _on_data_source.
    destruct (_ <? 4) eqn:E; [|apply Z.ltb_ge in E; lia].
    eexists. split; [reflexivity|]. cbn.
    split; [reflexivity|]. split; reflexivity.
  - destruct data as [|u0 [|u1 [|u2 [|u3 payload]]]];
      try (unfold len in Hl; simpl in Hl; lia).
    destruct (on_data_source_eq u0 u1 u2 u3 payload self)
      as (attrs & s & _ & _ & ->).
    eexists. split; [reflexivity|]. cbn.
    split; [reflexivity|]. split; [reflexivity | apply delete_subseteq].
Qed.

(** X9. A packet shorter than the 4 uid bytes is printed and dropped; and
    whatever the packet, the data-source handler never schedules a
    request, never writes to the control point and never adds a pending
    entry. *)
Theorem data_source_frame (data : list byte) (self : ANCSMirror) :
  exists self',
    _on_data_source data self = Ok self' /\
    tasks self' = tasks self /\
    written self' = written self /\
    client self' = client self /\
    pending self' ⊆ pending self /\
    (len data < 4 -> self' = print (DsShortPacket data) self).
Proof.
  destruct (Z.lt_ge_cases (len data) 4) as [Hs|Hl].
  - unfold _on_data_source.
    destruct (_ <? 4) eqn:E; [|apply Z.ltb_ge in E; lia].
    eexists. split; [reflexivity|]. cbn.
    split; [reflexivity|]. split; [reflexivity|]. split; [reflexivity|].
    split; [reflexivity|]. intros _. reflexivity.
  - destruct data as [|u0 [|u1 [|u2 [|u3 payload]]]];
      try (unfold len in Hl; simpl in Hl; lia).
    destruct (on_data_source_eq u0 u1 u2 u3 payload self)
      as (attrs & s & _ & _ & ->).
    eexists. split; [reflexivity|]. cbn.
    split; [reflexivity|]. split; [reflexivity|]. split; [reflexivity|].
    split; [apply delete_subseteq|].
    intros H. unfold len in H. simpl in H. lia.
Qed.

Lemma data_source_frame_witness :
  exists self',
    _on_data_source [x2a; x00; x00] connected = Ok self' /\
    self' = print (DsShortPacket [x2a; x00; x00]) connected.
Proof.
  destruct (data_source_frame [x2a; x00; x00] connected)
    as (self' & Hr & _ & _ & _ & _ & Hshort).
  exists self'. split; [exact Hr|]. apply Hshort. reflexivity.
Defined.

(** X10. The message preview is the message itself up to 200 characters, and
    otherwise its first 200 characters followed by an ellipsis: it never
    exceeds 201 characters and always starts like the message. *)
Theorem preview_bounds (message : list Z) :
  len (preview message) = Z.min (len message) 201 /\
  take 200 (preview message) = take 200 message /\
  (len message <= 200 -> preview message = message) /\
  (200 < len message -> last (preview message) = Some 0x2026).
Proof.
  unfold preview.
  destruct (len message <=? 200) eqn:E.
  - apply Z.leb_le in E. repeat split; [lia | lia].
  - apply Z.leb_gt in E.
    assert (slice message 0 200 = take 200 message) as ->.
    { unfold slice, clamp. pose proof (len_nonneg message).
      cbn [Z.ltb Z.compare]. rewrite Z.min_l, Z.min_l by lia.
      reflexivity. }
    assert (length (take 200 message) = 200%nat) as Hlen
      by (rewrite length_take; unfold len in E; lia).
    repeat split.
    + rewrite len_app. unfold len at 1 2. rewrite Hlen. cbn. lia.
    + rewrite take_app_le by lia. rewrite take_take. reflexivity.
    + lia.
    + intros _. apply last_snoc.
Qed.

Lemma preview_bounds_witness :
  preview [72; 105] = [72; 105] /\
  last (preview (replicate 201 65)) = Some 0x2026.
Proof.
  split.
  - apply (proj1 (proj2 (proj2 (preview_bounds [72; 105])))).
    vm_compute. discriminate.
  - apply (proj2 (proj2 (proj2 (preview_bounds (replicate 201 65))))).
    vm_compute. reflexivity.
Defined.

(** ** More about the decoded text *)

Lemma utf8_decode_ascii (errors : error_handler) (bs : list byte) :
  forallb is_ascii bs = true ->
  utf8_decode errors bs = Ok (map byte_val bs).
Proof.
  induction bs as [|b bs IH]; [reflexivity|].
  cbn [forallb]. intros H. apply andb_true_iff in H as [Hb H].
  unfold is_ascii in Hb. cbn [utf8_decode]. rewrite Hb, IH by exact H.
  reflexivity.
Qed.

(** X11. A response whose application id, title and message are plain 7-bit
    text comes through byte for byte, trimmed at both ends. *)
Theorem summarize_ascii (attrs : gmap Z (list byte)) :
  forallb is_ascii (dict_get attrs NA_APP_IDENTIFIER []
                    ++ dict_get attrs NA_TITLE []
                    ++ dict_get attrs NA_MESSAGE []) = true ->
  summarize attrs
  = Ok (mkSummary
          (strip STRIP_CHARS (map byte_val (dict_get attrs NA_APP_IDENTIFIER [])))
          (strip STRIP_CHARS (map byte_val (dict_get attrs NA_TITLE [])))
          (strip STRIP_CHARS (map byte_val (dict_get attrs NA_MESSAGE [])))).
Proof.
  intros H. rewrite !forallb_app in H.
  apply andb_true_iff in H as [Ha H]. apply andb_true_iff in H as [Ht Hm].
  unfold summarize.
  rewrite !utf8_decode_ascii by assumption. reflexivity.
Qed.

Lemma summarize_ascii_witness :
  summarize {[ NA_TITLE := [x20; x48; x69; x0a]; NA_MESSAGE := [x6f; x6b] ]}
  = Ok (mkSummary [] [72; 105] [111; 107]).
Proof.
  exact (summarize_ascii
           {[ NA_TITLE := [x20; x48; x69; x0a]; NA_MESSAGE := [x6f; x6b] ]}
           eq_refl).
Defined.

Lemma utf8_decode_scalar_aux (n : nat) :
  forall (s : list byte) (t : list Z),
    (length s <= n)%nat ->
    utf8_decode Ignore s = Ok t ->
    Forall scalar_value t /\ (length t <= length s)%nat.
Proof.
  induction n as [|n IH]; intros s t Hn H.
  { destruct s; [|simpl in Hn; lia]. scalar_cut_short H. }
  destruct s as [|b1 s1]; [scalar_cut_short H|].
  pose proof (byte_val_range b1) as R1.
  cbn [utf8_decode] in H.
  destruct (byte_val b1 <? 128) eqn:E1; [scalar_emitted IH s1 H|].
  destruct (byte_val b1 <? 194) eqn:E2; [scalar_dropped IH s1 H|].
  destruct (byte_val b1 <? 224) eqn:E3.
  { destruct s1 as [|b2 s2]; [scalar_cut_short H|].
    pose proof (byte_val_range b2) as R2.
    destruct (negb (is_continuation (byte_val b2))) eqn:C2;
      [scalar_dropped IH (b2 :: s2) H | scalar_emitted IH s2 H]. }
  destruct (byte_val b1 <? 240) eqn:E4.
  { destruct s1 as [|b2 s2]; [scalar_cut_short H|].
    pose proof (byte_val_range b2) as R2.
    destruct (negb (is_continuation (byte_val b2))
              || (if byte_val b2 <? 160 then byte_val b1 =? 224
                  else byte_val b1 =? 237)) eqn:C2;
      [scalar_dropped IH (b2 :: s2) H|].
    destruct s2 as [|b3 s3]; [scalar_cut_short H|].
    pose proof (byte_val_range b3) as R3.
    destruct (negb (is_continuation (byte_val b3))) eqn:C3;
      [scalar_dropped IH (b3 :: s3) H | scalar_emitted IH s3 H]. }
  destruct (byte_val b1 <? 245) eqn:E5; [|scalar_dropped IH s1 H].
  destruct s1 as [|b2 s2]; [scalar_cut_short H|].
  pose proof (byte_val_range b2) as R2.
  destruct (negb (is_continuation (byte_val b2))
            || (if byte_val b2 <? 144 then byte_val b1 =? 240
                else byte_val b1 =? 244)) eqn:C2;
    [scalar_dropped IH (b2 :: s2) H|].
  destruct s2 as [|b3 s3]; [scalar_cut_short H|].
  pose proof (byte_val_range b3) as R3.
  destruct (negb (is_continuation (byte_val b3))) eqn:C3;
    [scalar_dropped IH (b3 :: s3) H|].
  destruct s3 as [|b4 s4]; [scalar_cut_short H|].
  pose proof (byte_val_range b4) as R4.
  destruct (negb (is_continuation (byte_val b4))) eqn:C4;
    [scalar_dropped IH (b4 :: s4) H | scalar_emitted IH s4 H].
Qed.

Lemma decoded_field_scalar (raw : list byte) :
  exists text,
    utf8_decode Ignore raw = Ok text /\
    Forall scalar_value (strip STRIP_CHARS text) /\
    len (strip STRIP_CHARS text) <= len raw.
Proof.
  destruct (utf8_decode_ignore_permissive raw) as (text & Hd & _).
  exists text. split; [exact Hd|].
  destruct (utf8_decode_scalar_aux (length raw) raw text ltac:(lia) Hd)
    as [Hs Hl].
  destruct (strip_trimmed STRIP_CHARS text) as (l & r & Ht & _).
  rewrite Ht in Hs, Hl.
  apply Forall_app in Hs as [_ Hs]. apply Forall_app in Hs as [Hs _].
  split; [exact Hs|].
  rewrite !length_app in Hl. unfold len. lia.
Qed.

(** X12. Whatever bytes a response carries, the application id, title and
    message of its summary are made of Unicode scalar values only (no
    surrogate, nothing above 0x10FFFF), and none has more characters than
    its attribute has bytes. *)
Theorem summary_fields_scalar (attrs : gmap Z (list byte)) :
  exists s,
    summarize attrs = Ok s /\
    Forall scalar_value (app_id s) /\
    Forall scalar_value (title s) /\
    Forall scalar_value (message s) /\
    len (app_id s) <= len (dict_get attrs NA_APP_IDENTIFIER []) /\
    len (title s) <= len (dict_get attrs NA_TITLE []) /\
    len (message s) <= len (dict_get attrs NA_MESSAGE []).
Proof.
  destruct (decoded_field_scalar (dict_get attrs NA_TITLE []))
    as (t & Ht & Hts & Htl).
  destruct (decoded_field_scalar (dict_get attrs NA_MESSAGE []))
    as (m & Hm & Hms & Hml).
  destruct (decoded_field_scalar (dict_get attrs NA_APP_IDENTIFIER []))
    as (a & Ha & Has & Hal).
  unfold summarize. rewrite Ht, Hm, Ha.
  eexists. split; [reflexivity|]. cbn [app_id title message].
  repeat split; assumption.
Qed.

(** ** More about the attribute request *)



(** X14. Without a client the request returns at once: nothing is built,
    recorded, written or printed, even for a uid that would not fit four
    bytes. With a client, a uid outside the u32 range makes the coroutine
    raise [OverflowError] before anything is recorded or written. *)
Theorem request_edge_cases
        (write_gatt_char : list byte -> write_outcome) (uid : Z)
        (self : ANCSMirror) :
  (client self = false ->
   _request_notification_attributes write_gatt_char uid self = Ok self)
  /\
  (client self = true -> ~ (0 <= uid < 2 ^ 32) ->
   _request_notification_attributes write_gatt_char uid self
   = Raise OverflowError).
Proof.
  unfold _request_notification_attributes, request_start.
  split.
  - intros ->. reflexivity.
  - intros -> Hu. unfold build_command, int_to_bytes_little.
    destruct ((0 <=? uid) && (uid <? 256 ^ Z.of_nat 4)) eqn:E; [|reflexivity].
    apply andb_true_iff in E as [E0 E1].
    apply Z.leb_le in E0. apply Z.ltb_lt in E1. exfalso. apply Hu. lia.
Qed.

Lemma request_edge_cases_witness :
  _request_notification_attributes
    (fun _ => WriteOk) (2 ^ 32) (mkANCSMirror false ∅ [] [] [])
  = Ok (mkANCSMirror false ∅ [] [] [])
  /\
  _request_notification_attributes (fun _ => WriteOk) (2 ^ 32) connected
  = Raise OverflowError.
Proof.
  split.
  - apply (proj1 (request_edge_cases
                    (fun _ => WriteOk) (2 ^ 32)
                    (mkANCSMirror false ∅ [] [] []))).
    reflexivity.
  - apply (proj2 (request_edge_cases (fun _ => WriteOk) (2 ^ 32) connected));
      [reflexivity | lia].
Defined.

(** ** The handlers together *)

Lemma well_kept_kept (self self' : ANCSMirror) :
  well_kept self ->
  pending self' ⊆ pending self ->
  written self' = written self ->
  (tasks self' = tasks self
   \/ exists uid, is_u32 uid /\ tasks self' = tasks self ++ [uid]) ->
  well_kept self'.
Proof.
  intros (Hp & Ht & Hw) Hsub Hwr Hta.
  assert (forall u, u ∈ tasks self -> u ∈ tasks self') as Hin.
  { intros u Hu. destruct Hta as [->|(uid & _ & ->)]; [exact Hu|].
    apply elem_of_app. left. exact Hu. }
  split; [|split].
  - intros k p Hk. apply (lookup_weaken _ _ _ _ Hk) in Hsub.
    destruct (Hp k p Hsub) as [-> Hkt]. split; [reflexivity | apply Hin, Hkt].
  - destruct Hta as [->|(uid & Hu & ->)]; [exact Ht|].
    apply Forall_app. split; [exact Ht|].
    constructor; [exact Hu | constructor].
  - rewrite Hwr. eapply Forall_impl; [exact Hw|].
    intros cmd (u & Hu & ->). exists u. split; [apply Hin, Hu | reflexivity].
Qed.

Lemma request_start_well_kept (uid : Z) (self : ANCSMirror) :
  well_kept self ->
  uid ∈ tasks self ->
  exists r, request_start uid self = Ok r /\ well_kept (snd r).
Proof.
  intros Hk Hin. pose proof Hk as (Hp & Ht & Hw).
  assert (is_u32 uid) as Hu
    by (apply (proj1 (Forall_forall _ _) Ht), Hin).
  unfold request_start. destruct (client self); cbn [negb].
  - rewrite build_command_eq by exact Hu.
    eexists. split; [reflexivity|]. cbn.
    split; [|split]; cbn.
    + intros k p Hkp.
      destruct (decide (uid = k)) as [<-|Hne].
      * rewrite lookup_insert_eq in Hkp. injection Hkp as <-.
        split; [reflexivity | exact Hin].
      * rewrite lookup_insert_ne in Hkp by exact Hne. apply Hp, Hkp.
    + exact Ht.
    + apply Forall_app. split; [exact Hw|].
      constructor; [|constructor].
      exists uid. split; [exact Hin | reflexivity].
  - eexists. split; [reflexivity | exact Hk].
Qed.

Lemma deliver_well_kept (e : event) (self : ANCSMirror) :
  well_kept self ->
  exists self', deliver e self = Ok self' /\ well_kept self'.
Proof.
  intros Hk. destruct e as [data|data|n|n w]; cbn [deliver].
  - destruct (on_notification_source_keeps data self)
      as (self' & Hr & Hw & Hp & Ht).
    exists self'. split; [exact Hr|].
    apply (well_kept_kept self); assumption.
  - destruct (on_data_source_keeps data self)
      as (self' & Hr & Ht & Hw & Hp).
    exists self'. split; [exact Hr|].
    apply (well_kept_kept self); try assumption. left. exact Ht.
  - destruct (tasks self !! n) as [uid|] eqn:Hn; [|eauto].
    apply list_elem_of_lookup_2 in Hn.
    destruct (request_start_well_kept uid self Hk Hn) as (r & -> & Hr).
    cbn [mbind result_bind Py.bind]. eauto.
  - destruct (tasks self !! n) as [uid|]; [|eauto].
    eexists. split; [reflexivity|].
    apply (well_kept_kept self); try exact Hk;
      destruct w; cbn; try reflexivity; try (left; reflexivity).
    apply delete_subseteq.
Qed.

Lemma run_events_well_kept (es : list event) (self : ANCSMirror) :
  well_kept self ->
  exists self', run_events es self = Ok self' /\ well_kept self'.
Proof.
  revert self. induction es as [|e es IH]; intros self Hk; [cbn; eauto|].
  destruct (deliver_well_kept e self Hk) as (self1 & Hd & Hk1).
  cbn [run_events]. rewrite Hd. cbn [mbind result_bind Py.bind].
  apply IH, Hk1.
Qed.

(** X15. From a fresh [ANCSMirror], whatever packets arrive and however the
    scheduled requests start and end, nothing raises — a scheduled request
    never overflows its four uid bytes — and the books stay in order:
    every pending entry is the one a request made for an announced uid,
    and every payload written is the 12-byte attribute request for an
    announced uid. *)
Theorem engine_keeps_its_books (es : list event) (has_client : bool)
        (printed : list line) :
  exists self',
    run_events es (mkANCSMirror has_client ∅ printed [] []) = Ok self' /\
    well_kept self' /\
    Forall (fun cmd => length cmd = 12%nat) (written self').
Proof.
  destruct (run_events_well_kept es (mkANCSMirror has_client ∅ printed [] []))
    as (self' & Hr & Hk).
  { split; [|split]; cbn; [|constructor|constructor].
    intros k p H. rewrite lookup_empty in H. discriminate. }
  exists self'. split; [exact Hr|]. split; [exact Hk|].
  destruct Hk as (_ & _ & Hw).
  eapply Forall_impl; [exact Hw|].
  intros cmd (u & _ & ->). reflexivity.
Qed.

(** X16. The life of a notification: its Added packet, the start of the
    request and the end of a successful write leave exactly one pending
    entry, under the uid of the packet, and one command written, carrying
    the uid bytes of the packet; then a response that starts with the same
    four bytes, or a Removed packet with them, empties the table again. *)
Theorem added_then_answered (f c n u0 u1 u2 u3 : byte)
        (rest payload : list byte) :
  exists requested,
    run_events
      [NotificationSource
         (x00 :: f :: c :: n :: u0 :: u1 :: u2 :: u3 :: rest);
       RequestStarts 0; RequestResumes 0 WriteOk] connected
    = Ok requested /\
    pending requested
    = {[ Spec.u32_le u0 u1 u2 u3 :=
           mkPendingRequest (Spec.u32_le u0 u1 u2 u3)
                            "notification_attributes" ]} /\
    written requested
    = [[x00; u0; u1; u2; u3; x00; x01; x40; x00; x03; x00; x01]] /\
    (exists answered,
       run_events [DataSource (u0 :: u1 :: u2 :: u3 :: payload)] requested
       = Ok answered /\
       pending answered = ∅ /\
       written answered = written requested) /\
    (exists removed,
       run_events
         [NotificationSource
            (x02 :: f :: c :: n :: u0 :: u1 :: u2 :: u3 :: rest)] requested
       = Ok removed /\
       pending removed = ∅ /\
       written removed = written requested).
Proof.
  cbn [run_events deliver].
  rewrite on_notification_source_eq. cbv zeta.
  change (byte_val x00 =? 0) with true. cbv iota.
  cbn [mbind result_bind Py.bind create_task print tasks lookup].
  unfold connected.
  cbn [client pending stdout tasks written app list_lookup].
  change ([Spec.u32_le u0 u1 u2 u3] !! 0%nat)
    with (Some (Spec.u32_le u0 u1 u2 u3)).
  cbv iota beta.
  unfold request_start, create_task, print.
  cbn [client pending stdout tasks written app negb].
  rewrite build_command_eq by apply u32_le_range.
  unfold set_pending, write_gatt_char_called.
  cbn [mbind result_bind Py.bind snd client pending stdout tasks written app].
  change ([Spec.u32_le u0 u1 u2 u3] !! 0%nat)
    with (Some (Spec.u32_le u0 u1 u2 u3)).
  cbv iota beta. unfold request_finish, print.
  cbn [mbind result_bind Py.bind snd client pending stdout tasks written app].
  eexists. split; [reflexivity|]. cbn [pending written].
  split; [reflexivity|].
  split; [unfold Spec.command_bytes; rewrite le_bytes_u32_le; reflexivity|].
  split.
  - match goal with
    | |- context [_on_data_source _ ?st] =>
      destruct (on_data_source_eq u0 u1 u2 u3 payload st)
        as (attrs & s & _ & _ & ->)
    end.
    eexists. split; [reflexivity|]. cbn [pending written client].
    split; [|reflexivity].
    rewrite delete_insert_eq. apply delete_empty.
  - rewrite on_notification_source_eq. cbv zeta.
    eexists. split; [reflexivity|]. cbn.
    split; [|reflexivity].
    rewrite delete_insert_eq. apply delete_empty.
Qed.

(** ** The remembered address and the choice of the device *)

Lemma nonempty_true (s : string) : nonempty s = true <-> s <> ""%string.
Proof. destruct s; cbn; split; intros H; congruence. Qed.

Lemma load_saved_address_nonempty (file : config_file) (addr : string) :
  load_saved_address file = Some addr ->
  nonempty addr = true /\ path_exists file = true.
Proof.
  destruct file as [| | |[| | | | | |members]]; cbn; try discriminate.
  destruct (members !! "address"%string) as [[| | | |s| |]|];
    try discriminate.
  destruct (nonempty s) eqn:Hs; [|discriminate].
  intros [= <-]. split; [exact Hs | reflexivity].
Qed.

(** X17. [load_saved_address] returns an address exactly when the file holds a
    JSON object whose ["address"] member is a non-empty string, and then
    returns that string; a missing or unreadable file, text that is not
    JSON, a JSON value that is not an object, an object without the
    member, a member that is not a string and an empty string all give
    [None], none raises. *)
Theorem load_saved_address_some (file : config_file) (addr : string) :
  load_saved_address file = Some addr <->
  exists members,
    file = Json (JObject members) /\
    members !! "address"%string = Some (JString addr) /\
    addr <> ""%string.
Proof.
  split.
  - destruct file as [| | |[| | | | | |members]]; cbn; try discriminate.
    destruct (members !! "address"%string) as [[| | | |s| |]|] eqn:Hm;
      try discriminate.
    destruct (nonempty s) eqn:Hs; [|discriminate].
    intros [= ->]. exists members.
    split; [reflexivity|]. split; [exact Hm|]. apply nonempty_true, Hs.
  - intros (members & -> & Hm & Hne). cbn. rewrite Hm.
    apply nonempty_true in Hne. rewrite Hne. reflexivity.
Qed.

Lemma load_saved_address_some_witness :
  load_saved_address
    (Json (JObject {[ "address"%string := JString "AA:BB:CC:DD:EE:FF";
                      "other"%string := JInt 1 ]}))
  = Some "AA:BB:CC:DD:EE:FF"%string.
Proof.
  apply (proj2 (load_saved_address_some _ _)).
  eexists. split; [reflexivity|]. split; [reflexivity | discriminate].
Defined.

(** X18. Saving and loading: an address that was saved is the one loaded next,
    unless it is the empty string, which loads as no address; when the
    save fails, what loads is what the failure left in the file. *)
Theorem save_then_load (address : string) :
  load_saved_address (fst (save_address address Dumped))
  = (if nonempty address then Some address else None)
  /\
  snd (save_address address Dumped) = [CfgSaved]
  /\
  (forall e after,
     load_saved_address (fst (save_address address (DumpFailed e after)))
     = load_saved_address after
     /\ snd (save_address address (DumpFailed e after)) = [CfgSaveFailed e]).
Proof.
  split; [|split; [reflexivity | intros e after; split; reflexivity]].
  cbn. rewrite lookup_singleton_eq. reflexivity.
Qed.

(** X19. Clearing: after a removal that succeeds, or when there was no file,
    nothing is loaded and the file is missing; a removal that fails is
    printed and leaves the file, and so the saved address, as it was;
    with no file there, nothing is removed and nothing printed. *)
Theorem clear_then_load (file : config_file) :
  fst (clear_saved_address RemoveOk file) = Missing
  /\
  load_saved_address (fst (clear_saved_address RemoveOk file)) = None
  /\
  (forall e,
     fst (clear_saved_address (RemoveFailed e) file) = file /\
     snd (clear_saved_address (RemoveFailed e) file)
     = (if path_exists file then [CfgClearFailed e] else []))
  /\
  (forall rm, clear_saved_address rm Missing = (Missing, [])).
Proof.
  split; [destruct file; reflexivity|].
  split; [destruct file; reflexivity|].
  split; [|reflexivity].
  intros e. destruct file; split; reflexivity.
Qed.

(** X20. The address [main] hands to the [ANCSMirror] is never the empty
    string: it is a non-empty [--address], else a non-empty saved address,
    else none. A non-empty [--address] always wins over the saved one, and
    then no use of a saved address is announced. *)
Theorem main_address_choice (args_address : option string)
        (args_forget_address : bool) (rm : remove_outcome)
        (file : config_file) :
  let r := main_address args_address args_forget_address rm file in
  (fst (fst r) = None \/ is_set (fst (fst r)) = true)
  /\
  (is_set args_address = true ->
   fst (fst r) = args_address /\
   forall saved, CfgUsingSaved saved ∉ snd r).
Proof.
  cbv zeta. unfold main_address.
  destruct (if args_forget_address then clear_saved_address rm file
            else (file, [])) as [file' out] eqn:Hc.
  assert (forall saved, CfgUsingSaved saved ∉ out) as Hout.
  { intros saved Hin. destruct args_forget_address.
    - unfold clear_saved_address in Hc.
      destruct (path_exists file), rm; injection Hc as <- <-;
        repeat (apply elem_of_cons in Hin as [Hin|Hin]; [discriminate|]);
        apply elem_of_nil in Hin; exact Hin.
    - injection Hc as <- <-. apply elem_of_nil in Hin. exact Hin. }
  assert (load_saved_address file' = None
          \/ is_set (load_saved_address file') = true) as Hload.
  { destruct (load_saved_address file') as [a|] eqn:Hl; [|left; reflexivity].
    right. apply (load_saved_address_nonempty _ _ Hl). }
  unfold or_else. cbn [fst snd].
  destruct (is_set args_address) eqn:Ha.
  - split; [right; exact Ha|]. intros _. split; [reflexivity|].
    intros saved. destruct (load_saved_address file'); [|apply Hout].
    rewrite andb_false_r. apply Hout.
  - split; [exact Hload | discriminate].
Qed.

Lemma main_address_choice_witness :
  fst (fst (main_address (Some "11:22:33:44:55:66"%string) false RemoveOk
                         (Json (JObject {[ "address"%string :=
                                             JString "AA:BB:CC:DD:EE:FF" ]}))))
  = Some "11:22:33:44:55:66"%string.
Proof.
  apply (proj2 (main_address_choice
                  (Some "11:22:33:44:55:66"%string) false RemoveOk
                  (Json (JObject {[ "address"%string :=
                                      JString "AA:BB:CC:DD:EE:FF" ]})))).
  reflexivity.
Defined.

(** X21. With [--forget-address] and a removal that succeeds, the saved
    address plays no part: the file is gone and [main] goes on with the
    [--address] it was given, if that is not empty, and with none
    otherwise. When the removal fails, the failure is printed and the
    saved address is used all the same. *)
Theorem main_forget_address (args_address : option string)
        (file : config_file) :
  (let r := main_address args_address true RemoveOk file in
   fst (fst r) = (if is_set args_address then args_address else None) /\
   snd (fst r) = Missing /\
   snd r = (if path_exists file then [CfgCleared] else []))
  /\
  (forall e saved,
     load_saved_address file = Some saved ->
     main_address None true (RemoveFailed e) file
     = (Some saved, file, [CfgClearFailed e; CfgUsingSaved saved])).
Proof.
  split.
  - cbv zeta. unfold main_address, clear_saved_address, or_else.
    destruct file; cbn; destruct (is_set args_address); repeat split.
  - intros e saved Hl. unfold main_address, clear_saved_address.
    destruct (load_saved_address_nonempty _ _ Hl) as [Hne ->].
    rewrite Hl. unfold or_else. cbn [is_set]. rewrite Hne. reflexivity.
Qed.

Lemma main_forget_address_witness :
  main_address None true (RemoveFailed "busy")
               (Json (JObject {[ "address"%string :=
                                   JString "AA:BB:CC:DD:EE:FF" ]}))
  = (Some "AA:BB:CC:DD:EE:FF"%string,
     Json (JObject {[ "address"%string := JString "AA:BB:CC:DD:EE:FF" ]}),
     [CfgClearFailed "busy"; CfgUsingSaved "AA:BB:CC:DD:EE:FF"]).
Proof.
  apply (proj2 (main_forget_address
                  None
                  (Json (JObject {[ "address"%string :=
                                      JString "AA:BB:CC:DD:EE:FF" ]})))).
  reflexivity.
Defined.

(** X22. [scan_and_pick] chooses the first device found, whatever the names,
    and no device when none is found; it prints one line per device
    between its first line and the line of the outcome. *)
Theorem scan_and_pick_first (devices : list device) :
  fst (scan_and_pick devices) = address <$> head devices /\
  length (snd (scan_and_pick devices)) = S (S (length devices)) /\
  head (snd (scan_and_pick devices)) = Some ScanScanning /\
  last (snd (scan_and_pick devices))
  = Some (match head devices with
          | Some d => ScanChoosing (shown_name d) (address d)
          | None => ScanNoDevices
          end).
Proof.
  unfold scan_and_pick. destruct devices as [|d ds]; cbn [fst snd head].
  - repeat split.
  - split; [reflexivity|]. split; [|split; [reflexivity|]].
    + cbn [app]. rewrite length_cons, length_app, length_map. cbn. lia.
    + apply last_snoc.
Qed.

(** X23. [connect] goes on only with a non-empty address: the one the
    [ANCSMirror] was given, without scanning, or else the address of the
    first device found; it raises when no address was given and the scan
    finds no device, or one whose address is empty. *)
Theorem connect_address_choice (self_address : option string)
        (devices : list device) :
  (is_set self_address = true ->
   connect_address self_address devices = (self_address, []))
  /\
  (is_set self_address = false ->
   fst (connect_address self_address devices)
   = match head devices with
     | Some d => if nonempty (address d) then Some (address d) else None
     | None => None
     end)
  /\
  (fst (connect_address self_address devices) = None
   \/ is_set (fst (connect_address self_address devices)) = true).
Proof.
  unfold connect_address.
  destruct (is_set self_address) eqn:Ha.
  - split; [reflexivity|]. split; [discriminate|]. right. exact Ha.
  - split; [discriminate|].
    destruct devices as [|d ds]; cbn.
    + split; [reflexivity | left; reflexivity].
    + destruct (nonempty (address d)) eqn:Hd; cbn.
      * split; [reflexivity | right; exact Hd].
      * split; [reflexivity | left; reflexivity].
Qed.

Lemma connect_address_choice_witness :
  connect_address (Some "AA:BB:CC:DD:EE:FF"%string)
                  [mkDevice None "11:22:33:44:55:66"]
  = (Some "AA:BB:CC:DD:EE:FF"%string, [])
  /\
  fst (connect_address (Some ""%string)
                       [mkDevice None "11:22:33:44:55:66";
                        mkDevice (Some "iPhone"%string) "77:88:99:AA:BB:CC"])
  = Some "11:22:33:44:55:66"%string.
Proof.
  split.
  - apply (proj1 (connect_address_choice
                    (Some "AA:BB:CC:DD:EE:FF"%string)
                    [mkDevice None "11:22:33:44:55:66"])).
    reflexivity.
  - apply (proj1 (proj2 (connect_address_choice
                           (Some ""%string)
                           [mkDevice None "11:22:33:44:55:66";
                            mkDevice (Some "iPhone"%string)
                                     "77:88:99:AA:BB:CC"]))).
    reflexivity.
Defined.

(** X24. An address remembered by one run is the one the next run connects
    to: after a save that succeeded, a run without [--address] and
    without [--forget-address] announces the saved address, hands it to
    the [ANCSMirror], and [connect] uses it without scanning. *)
Theorem remembered_address_is_used (addr : string) (rm : remove_outcome)
        (devices : list device) :
  nonempty addr = true ->
  main_address None false rm (fst (save_address addr Dumped))
  = (Some addr, fst (save_address addr Dumped), [CfgUsingSaved addr])
  /\
  connect_address (Some addr) devices = (Some addr, []).
Proof.
  intros Hne. split.
  - unfold main_address, save_address, or_else.
    cbn [fst load_saved_address json_get].
    rewrite lookup_singleton_eq, Hne. cbn [is_set negb andb].
    rewrite Hne. reflexivity.
  - unfold connect_address. cbn [is_set]. rewrite Hne. reflexivity.
Qed.

Lemma remembered_address_is_used_witness :
  main_address None false RemoveOk
               (fst (save_address "AA:BB:CC:DD:EE:FF" Dumped))
  = (Some "AA:BB:CC:DD:EE:FF"%string,
     fst (save_address "AA:BB:CC:DD:EE:FF" Dumped),
     [CfgUsingSaved "AA:BB:CC:DD:EE:FF"])
  /\
  connect_address (Some "AA:BB:CC:DD:EE:FF"%string) []
  = (Some "AA:BB:CC:DD:EE:FF"%string, []).
Proof.
  apply (remembered_address_is_used "AA:BB:CC:DD:EE:FF" RemoveOk []).
  reflexivity.
Defined.

